(** * EduPath service worker: caching and offline-resilience layer

    Shallow embedding of [sw.js] (the current revision, with the four
    partitions static-shell, dynamic-pages, images and third-party) and
    proofs of the properties its design document states.

    The browser's Cache Storage is modelled as the ordered key-value store
    of the Cache interface: a partition is a list of (request identity,
    response) pairs in insertion order, a storage is a list of named
    partitions in creation order.  [put] removes the entries of the same
    identity and appends the new one; [delete] removes the entries of an
    identity; [keys] lists identities in insertion order.  [put] and
    [addAll] refuse a response with status 206 or with [Vary: *].  A
    [put] the source does not await lands after the steps that follow it
    in the handler, and its rejection is lost.  Quota failures are outside
    the model. *)

From Stdlib Require Import String Ascii.
From Stdlib Require Import List Bool Arith NArith ZArith Lia.
From Stdlib Require Import Permutation.
From Equations Require Import Equations.
Import ListNotations.
Open Scope string_scope.
Open Scope list_scope.

(* ------------------------------------------------------------------ *)
(** ** Constants of the worker *)

Definition CACHE_NAME : string := "EduPath-pwa-v1".
Definition DYNAMIC_CACHE : string := "EduPath-dynamic-v1".
Definition IMAGE_CACHE : string := "EduPath-images-v1".
Definition CDN_CACHE : string := "EduPath-cdn-v1".
Definition MAX_DYNAMIC_ITEMS : nat := 50.
Definition MAX_IMAGE_ITEMS : nat := 100.

(** The local manifest.  (The listing of [sw.js] lacks the comma after the
    careers page entry; the eight entries it spells out are taken.) *)
Definition urlsToCache : list string :=
  [ "/";
    "/index.html";
    "/pages/roadmaps_page.html";
    "/pages/explore_colleges.html";
    "/pages/careers_page.html";
    "/manifest.json";
    "/icons/favicon.png";
    "/offline.html" ].

Definition cdnUrlsToCache : list string :=
  [ "https://cdn.jsdelivr.net/npm/@tailwindcss/browser@4";
    "https://fonts.googleapis.com/css2?family=Inter:wght@300;400;500;600;700;800&family=Poppins:wght@300;400;500;600;700&display=swap";
    "https://fonts.googleapis.com/css2?family=Syne:wght@400;500;600;700;800&display=swap";
    "https://fonts.googleapis.com/css2?family=Space+Grotesk:wght@300;400;500;600;700&display=swap" ].

Definition cacheWhitelist : list string :=
  [CACHE_NAME; DYNAMIC_CACHE; IMAGE_CACHE; CDN_CACHE].

Definition cdnDomains : list string :=
  [ "cdn.tailwindcss.com";
    "fonts.googleapis.com";
    "fonts.gstatic.com";
    "cdnjs.cloudflare.com";
    "unpkg.com";
    "cdn.jsdelivr.net" ].

Definition API_TIMEOUT_MS : N := 5000.

(* ------------------------------------------------------------------ *)
(** ** Responses and the partition store *)

Record Response := mkResponse {
  status : N;
  headers : list (string * string);
  body : string
}.

(** Header names are compared without regard to case. *)
Definition lower_ascii (c : ascii) : ascii :=
  let n := nat_of_ascii c in
  if Nat.leb 65 n && Nat.leb n 90 then ascii_of_nat (n + 32) else c.

Fixpoint lower (s : string) : string :=
  match s with
  | EmptyString => EmptyString
  | String c s' => String (lower_ascii c) (lower s')
  end.

Definition has_header (name : string) (hs : list (string * string)) : bool :=
  existsb (fun h => String.eqb (lower (fst h)) name) hs.

(** The members of a comma-separated header value with their blanks
    removed ([cur] is the member being read). *)
Fixpoint members_from (s cur : string) : list string :=
  match s with
  | EmptyString => [cur]
  | String c s' =>
      if Ascii.eqb c ","%char then cur :: members_from s' EmptyString
      else if Ascii.eqb c " "%char || Ascii.eqb c (ascii_of_nat 9)
      then members_from s' cur
      else members_from s' (String.append cur (String c EmptyString))
  end.

(** A [Vary] header with the member [*]. *)
Definition vary_star (r : Response) : bool :=
  existsb (fun h => String.eqb (lower (fst h)) "vary"
                    && existsb (String.eqb "*") (members_from (snd h) ""))
          (headers r).

(** What the Cache stores: [put] and [addAll] refuse a response with
    status 206 or whose [Vary] header has the member [*]. *)
Definition storable (r : Response) : bool :=
  negb (N.eqb (status r) 206) && negb (vary_star r).

(** A request identity is the URL of a GET request. *)
Definition Cache := list (string * Response).
Definition CacheStorage := list (string * Cache).

Definition key_is (k : string) (e : string * Response) : bool :=
  String.eqb (fst e) k.

Definition cache_match (k : string) (c : Cache) : option Response :=
  option_map snd (find (key_is k) c).

Definition cache_delete (k : string) (c : Cache) : Cache :=
  filter (fun e => negb (key_is k e)) c.

Definition cache_put (k : string) (r : Response) (c : Cache) : Cache :=
  cache_delete k c ++ [(k, r)].

Definition cache_keys (c : Cache) : list string := map fst c.

Definition name_is (n : string) (p : string * Cache) : bool :=
  String.eqb (fst p) n.

Definition caches_has (n : string) (s : CacheStorage) : bool :=
  existsb (name_is n) s.

(** [caches.open(n)]: the partition is created empty when it does not
    exist yet. *)
Definition caches_open (n : string) (s : CacheStorage) : CacheStorage :=
  if caches_has n s then s else s ++ [(n, [])].

Definition cache_of (n : string) (s : CacheStorage) : Cache :=
  match find (name_is n) s with
  | Some p => snd p
  | None => []
  end.

(** An operation [f] applied to the partition named [n]. *)
Definition in_cache (n : string) (f : Cache -> Cache) (s : CacheStorage)
  : CacheStorage :=
  map (fun p => if name_is n p then (fst p, f (snd p)) else p) s.

Definition caches_delete (n : string) (s : CacheStorage) : CacheStorage :=
  filter (fun p => negb (name_is n p)) s.

Definition caches_keys (s : CacheStorage) : list string := map fst s.

(** [caches.match(k)]: partitions are searched in creation order. *)
Fixpoint caches_match (k : string) (s : CacheStorage) : option Response :=
  match s with
  | [] => None
  | (_, c) :: s' =>
      match cache_match k c with
      | Some r => Some r
      | None => caches_match k s'
      end
  end.

(* ------------------------------------------------------------------ *)
(** ** The eviction enforcer *)

(** Case analysis that keeps the equation with the scrutinee. *)
Definition inspect {A : Type} (x : A) : { y : A | x = y } := exist _ x eq_refl.

Definition cache_size (n : string) (s : CacheStorage) : nat :=
  length (cache_of n (caches_open n s)).

(** Facts the termination argument of the enforcer rests on. *)
Lemma cache_delete_length k c : length (cache_delete k c) <= length c.
Proof. apply filter_length_le. Qed.

Lemma cache_delete_first k c keys :
  cache_keys c = k :: keys -> length (cache_delete k c) < length c.
Proof.
  destruct c as [|[k' r] c]; simpl; [discriminate|].
  intros E. injection E as -> _.
  pose proof (cache_delete_length k c) as H.
  unfold cache_delete in *. simpl. unfold key_is at 1. simpl.
  rewrite String.eqb_refl. simpl. lia.
Qed.

Lemma caches_has_open n s : caches_has n (caches_open n s) = true.
Proof.
  unfold caches_open. destruct (caches_has n s) eqn:E; [exact E|].
  unfold caches_has. rewrite existsb_app. simpl. unfold name_is at 2. simpl.
  rewrite String.eqb_refl. apply orb_true_iff. right. reflexivity.
Qed.

Lemma caches_has_in_cache n m f s :
  caches_has n (in_cache m f s) = caches_has n s.
Proof.
  unfold caches_has, in_cache. induction s as [|p s IH]; simpl; [reflexivity|].
  rewrite IH. f_equal. destruct p as [a c]. unfold name_is. simpl.
  destruct (String.eqb a m); reflexivity.
Qed.

Lemma caches_open_present n s : caches_has n s = true -> caches_open n s = s.
Proof. intros H. unfold caches_open. rewrite H. reflexivity. Qed.

Lemma cache_of_in_cache n f s :
  caches_has n s = true -> cache_of n (in_cache n f s) = f (cache_of n s).
Proof.
  unfold caches_has, cache_of, in_cache.
  induction s as [|[a c] s IH]; simpl; [discriminate|].
  change (name_is n (a, c)) with (String.eqb a n).
  destruct (String.eqb a n) eqn:E; simpl.
  - change (name_is n (a, f c)) with (String.eqb a n). rewrite E. reflexivity.
  - change (name_is n (a, c)) with (String.eqb a n). rewrite E. exact IH.
Qed.

(** [limitCacheSize(cacheName, maxItems)]: open the partition, list its
    keys, and when there are more than [maxItems] delete [keys[0]] and
    start again. *)
Equations? limitCacheSize (cacheName : string) (maxItems : nat)
  (s : CacheStorage) : CacheStorage by wf (cache_size cacheName s) lt :=
  limitCacheSize cacheName maxItems s
    with inspect (cache_keys (cache_of cacheName (caches_open cacheName s))) := {
    | exist _ [] _ => caches_open cacheName s
    | exist _ (k0 :: keys) _ with inspect (Nat.ltb maxItems (length (k0 :: keys))) := {
      | exist _ true _ =>
          limitCacheSize cacheName maxItems
            (in_cache cacheName (cache_delete k0) (caches_open cacheName s))
      | exist _ false _ => caches_open cacheName s } }.
Proof.
  unfold cache_size.
  rewrite (caches_open_present cacheName (in_cache _ _ _))
    by (rewrite caches_has_in_cache; apply caches_has_open).
  rewrite cache_of_in_cache by apply caches_has_open.
  eapply cache_delete_first; eassumption.
Qed.

(* ------------------------------------------------------------------ *)
(** ** The worker's world and its computations *)

Inductive Error := NetworkError | RequestTimeout | TypeError.

(** What the network does with a fetch: it resolves with a response or
    rejects, [t] milliseconds after the call, or never settles. *)
Inductive FetchOutcome :=
| Resolves (t : N) (r : Response)
| Rejects (t : N)
| Pending.

Record Env := mkEnv {
  location_origin : string;
  network : string -> FetchOutcome;
  (** which of two promises settling in the same millisecond wins a race *)
  fetch_first_on_tie : bool
}.

Record World := mkWorld {
  caches : CacheStorage;
  fetch_log : list string;        (* URLs handed to [fetch], oldest first *)
  skipped_waiting : bool;
  clients_claimed : bool
}.

(** How an awaited computation ends: with a value, with a rejection, or
    never. *)
Inductive Completion (A : Type) :=
| Returned (a : A)
| Thrown (e : Error)
| Hangs.
Arguments Returned {A} a.
Arguments Thrown {A} e.
Arguments Hangs {A}.

Definition M (A : Type) := World -> Completion A * World.

Definition ret {A} (a : A) : M A := fun w => (Returned a, w).

Definition throw {A} (e : Error) : M A := fun w => (Thrown e, w).

Definition bind {A B} (m : M A) (f : A -> M B) : M B :=
  fun w =>
    match m w with
    | (Returned a, w') => f a w'
    | (Thrown e, w') => (Thrown e, w')
    | (Hangs, w') => (Hangs, w')
    end.

(** [try { m } catch (error) { h error }] *)
Definition try_catch {A} (m : M A) (h : Error -> M A) : M A :=
  fun w =>
    match m w with
    | (Thrown e, w') => h e w'
    | other => other
    end.

Notation "x <- m ;; k" := (bind m (fun x => k))
  (at level 61, m at next level, right associativity).
Notation "m ;;; k" := (bind m (fun _ => k))
  (at level 61, right associativity).

Definition on_caches (f : CacheStorage -> CacheStorage) : M unit :=
  fun w => (Returned tt,
            mkWorld (f (caches w)) (fetch_log w) (skipped_waiting w)
                    (clients_claimed w)).

Definition log_fetch (u : string) (w : World) : World :=
  mkWorld (caches w) (fetch_log w ++ [u]) (skipped_waiting w)
          (clients_claimed w).

(** [await fetch(request)] *)
Definition fetch (env : Env) (u : string) : M Response :=
  fun w =>
    match network env u with
    | Resolves _ r => (Returned r, log_fetch u w)
    | Rejects _ => (Thrown NetworkError, log_fetch u w)
    | Pending => (Hangs, log_fetch u w)
    end.

(** [await caches.match(request)] *)
Definition caches_matchM (k : string) : M (option Response) :=
  fun w => (Returned (caches_match k (caches w)), w).

(** What [cache.put(k, r.clone())] on the partition [n] does when it
    lands: the entry is written, unless the Cache refuses the response. *)
Definition put_lands (n k : string) (r : Response) (s : CacheStorage)
  : CacheStorage :=
  if storable r then in_cache n (cache_put k r) s else s.

(** A call whose promise the source does not await: its [effect] lands
    after the steps that follow it in the handler ([rest]), however these
    end, and a rejection of the call is lost. *)
Definition not_awaited {A} (effect : CacheStorage -> CacheStorage)
  (rest : M A) : M A :=
  fun w =>
    let (c, w') := rest w in
    (c, mkWorld (effect (caches w')) (fetch_log w') (skipped_waiting w')
                (clients_claimed w')).

Definition limitCacheSizeM (cacheName : string) (maxItems : nat) : M unit :=
  on_caches (limitCacheSize cacheName maxItems).

Definition skipWaiting : M unit :=
  fun w => (Returned tt,
            mkWorld (caches w) (fetch_log w) true (clients_claimed w)).

Definition clients_claim : M unit :=
  fun w => (Returned tt,
            mkWorld (caches w) (fetch_log w) (skipped_waiting w) true).

(** [new Response(body, { status, headers })] with a string body: the
    status defaults to 200, and the content type of text is added to the
    headers the source passes when they name none. *)
Definition new_Response (b : string) (st : option N)
  (hs : list (string * string)) : Response :=
  mkResponse (match st with Some n => n | None => 200%N end)
             (if has_header "content-type" hs then hs
              else hs ++ [("content-type", "text/plain;charset=UTF-8")])
             b.

(** [s.includes(sub)] on strings *)
Fixpoint includes (s sub : string) : bool :=
  if String.prefix sub s then true
  else match s with
       | EmptyString => false
       | String _ s' => includes s' sub
       end.

(** [list.includes(x)] on arrays of strings *)
Definition array_includes (l : list string) (x : string) : bool :=
  existsb (String.eqb x) l.

(* ------------------------------------------------------------------ *)
(** ** Requests and the strategies *)

(** A request with the components [new URL(request.url)] gives. *)
Record Request := mkRequest {
  url : string;
  method : string;
  destination : string;
  hostname : string;
  origin : string
}.

Definition isCDNResource (request : Request) : bool :=
  existsb (fun domain => includes (hostname request) domain) cdnDomains.

Definition css_fallback : Response :=
  new_Response "/* Offline - CSS unavailable */" None
               [("Content-Type", "text/css")].

Definition handleCDNRequest (env : Env) (request : Request) : M Response :=
  try_catch
    (cachedResponse <- caches_matchM (url request) ;;
     match cachedResponse with
     | Some r => ret r
     | None =>
         networkResponse <- fetch env (url request) ;;
         (if N.eqb (status networkResponse) 200
          then on_caches (caches_open CDN_CACHE) ;;;
               not_awaited
                 (put_lands CDN_CACHE (url request) networkResponse)
                 (ret tt)
          else ret tt) ;;;
         ret networkResponse
     end)
    (fun error =>
       cachedResponse <- caches_matchM (url request) ;;
       match cachedResponse with
       | Some r => ret r
       | None =>
           if includes (url request) ".css" || includes (url request) "tailwind"
           then ret css_fallback
           else throw error
       end).

(** The page strategy answers with a response or with [undefined] (when
    the final lookup of the placeholder finds nothing). *)
Definition handlePageRequest (env : Env) (request : Request)
  : M (option Response) :=
  try_catch
    (networkResponse <- fetch env (url request) ;;
     on_caches (caches_open DYNAMIC_CACHE) ;;;
     not_awaited
       (put_lands DYNAMIC_CACHE (url request) networkResponse)
       (limitCacheSizeM DYNAMIC_CACHE MAX_DYNAMIC_ITEMS ;;;
        ret (Some networkResponse)))
    (fun _ =>
       cachedResponse <- caches_matchM (url request) ;;
       match cachedResponse with
       | Some r => ret (Some r)
       | None => caches_matchM "/offline.html"
       end).

Definition image_unavailable : Response :=
  new_Response "Image not available" (Some 404%N) [].

Definition handleImageRequest (env : Env) (request : Request) : M Response :=
  cachedResponse <- caches_matchM (url request) ;;
  match cachedResponse with
  | Some r => ret r
  | None =>
      try_catch
        (networkResponse <- fetch env (url request) ;;
         on_caches (caches_open IMAGE_CACHE) ;;;
         not_awaited
           (put_lands IMAGE_CACHE (url request) networkResponse)
           (limitCacheSizeM IMAGE_CACHE MAX_IMAGE_ITEMS ;;;
            ret networkResponse))
        (fun _ => ret image_unavailable)
  end.

(** The double-quote character, and
    [JSON.stringify({ error: 'Network error', offline: true })]. *)
Definition dq : string := String (ascii_of_nat 34) EmptyString.

Definition network_error_json : string :=
  String.concat ""
    [ "{"; dq; "error"; dq; ":"; dq; "Network error"; dq; ",";
      dq; "offline"; dq; ":true}" ].

Definition network_error_response : Response :=
  new_Response network_error_json (Some 503%N)
               [("Content-Type", "application/json")].

(** [Promise.race([fetch(request), timeoutPromise])]: the fetch is issued,
    and the timer rejects [API_TIMEOUT_MS] after the call. *)
Definition fetch_wins (env : Env) (t : N) : bool :=
  N.ltb t API_TIMEOUT_MS || (N.eqb t API_TIMEOUT_MS && fetch_first_on_tie env).

Definition race_fetch_timeout (env : Env) (u : string) : M Response :=
  fun w =>
    match network env u with
    | Resolves t r =>
        if fetch_wins env t then (Returned r, log_fetch u w)
        else (Thrown RequestTimeout, log_fetch u w)
    | Rejects t =>
        if fetch_wins env t then (Thrown NetworkError, log_fetch u w)
        else (Thrown RequestTimeout, log_fetch u w)
    | Pending => (Thrown RequestTimeout, log_fetch u w)
    end.

Definition handleApiRequest (env : Env) (request : Request) : M Response :=
  try_catch
    (race_fetch_timeout env (url request))
    (fun _ => ret network_error_response).

(* ------------------------------------------------------------------ *)
(** ** The fetch listener *)

Inductive Route := ThirdParty | PassThrough | Image | ApiCall | Page.

(** The branch of the listener a request takes; [None] when the listener
    returns without answering (a request that is not a GET). *)
Definition route (env : Env) (request : Request) : option Route :=
  if negb (String.eqb (method request) "GET") then None
  else if isCDNResource request then Some ThirdParty
  else if negb (String.eqb (origin request) (location_origin env))
       then Some PassThrough
  else if String.eqb (destination request) "image" then Some Image
  else if includes (url request) "/api/" then Some ApiCall
  else Some Page.

Definition lift_response (m : M Response) : M (option Response) :=
  r <- m ;; ret (Some r).

(** The promise handed to [event.respondWith], if any. *)
Definition onFetch (env : Env) (request : Request)
  : option (M (option Response)) :=
  match route env request with
  | None => None
  | Some ThirdParty => Some (lift_response (handleCDNRequest env request))
  | Some PassThrough => Some (lift_response (fetch env (url request)))
  | Some Image => Some (lift_response (handleImageRequest env request))
  | Some ApiCall => Some (lift_response (handleApiRequest env request))
  | Some Page => Some (handlePageRequest env request)
  end.

(* ------------------------------------------------------------------ *)
(** ** Installation, activation and control messages *)

(** What [cache.addAll] accepts: a status in 200..299 other than 206, and
    no [Vary: *]. *)
Definition addAll_accepts (r : Response) : bool :=
  N.leb 200 (status r) && N.leb (status r) 299 && storable r.

Definition fetch_failed (o : FetchOutcome) : bool :=
  match o with
  | Resolves _ r => negb (addAll_accepts r)
  | Rejects _ => true
  | Pending => false
  end.

Definition fetch_pending (o : FetchOutcome) : bool :=
  match o with Pending => true | _ => false end.

Definition put_fetched (env : Env) (c : Cache) (u : string) : Cache :=
  match network env u with
  | Resolves _ r => cache_put u r c
  | _ => c
  end.

(** [cache.addAll(urls)] on the partition [n]: every URL is fetched; the
    call rejects when a fetch fails or its answer is not accepted, and
    then stores nothing; otherwise all responses are stored. *)
Definition addAll (env : Env) (n : string) (urls : list string) : M unit :=
  fun w =>
    let w' := mkWorld (caches w) (fetch_log w ++ urls) (skipped_waiting w)
                      (clients_claimed w) in
    if existsb (fun u => fetch_failed (network env u)) urls
    then (Thrown TypeError, w')
    else if existsb (fun u => fetch_pending (network env u)) urls
    then (Hangs, w')
    else on_caches (in_cache n (fun c => fold_left (put_fetched env) urls c)) w'.

(** [Promise.all([a, b])]: both run; the result rejects when one of them
    rejects. *)
Definition promise_all2 (a b : M unit) : M unit :=
  fun w =>
    let (ra, wa) := a w in
    let (rb, wb) := b wa in
    match ra, rb with
    | Thrown e, _ => (Thrown e, wb)
    | _, Thrown e => (Thrown e, wb)
    | Hangs, _ => (Hangs, wb)
    | _, Hangs => (Hangs, wb)
    | Returned _, Returned _ => (Returned tt, wb)
    end.

Definition cache_static_assets (env : Env) : M unit :=
  on_caches (caches_open CACHE_NAME) ;;;
  addAll env CACHE_NAME urlsToCache.

Definition cache_cdn_resources (env : Env) : M unit :=
  on_caches (caches_open CDN_CACHE) ;;;
  try_catch (addAll env CDN_CACHE cdnUrlsToCache) (fun _ => ret tt).

(** The promise the install listener hands to [event.waitUntil]. *)
Definition onInstall (env : Env) : M unit :=
  promise_all2 (cache_static_assets env) (cache_cdn_resources env) ;;;
  skipWaiting.

(** The deletions of the activate listener, taken in the order [order]. *)
Definition prune (whitelist : list string) (order : list string)
  (s : CacheStorage) : CacheStorage :=
  fold_left
    (fun s key =>
       if negb (array_includes whitelist key) then caches_delete key s else s)
    order s.

Definition onActivate : M unit :=
  on_caches (fun s => prune cacheWhitelist (caches_keys s) s) ;;;
  clients_claim.

(** Values a client can post to the worker. *)
#[warnings="-register-all"] Inductive JsValue :=
| JsUndefined
| JsNull
| JsBool (b : bool)
| JsNumber (z : Z)
| JsString (s : string)
| JsObject (props : list (string * JsValue)).

(** [v.name]: reading a property of [undefined] or [null] throws; a
    missing property reads as [undefined]. *)
Definition get_prop (v : JsValue) (name : string) : option JsValue :=
  match v with
  | JsUndefined | JsNull => None
  | JsObject props =>
      match find (fun p => String.eqb (fst p) name) props with
      | Some p => Some (snd p)
      | None => Some JsUndefined
      end
  | _ => Some JsUndefined
  end.

(** [v === 'literal'] *)
Definition strict_eq_string (v : JsValue) (lit : string) : bool :=
  match v with
  | JsString s => String.eqb s lit
  | _ => false
  end.

Definition read_action (data : JsValue) : M JsValue :=
  match get_prop data "action" with
  | Some v => ret v
  | None => throw TypeError
  end.

Definition onMessage (env : Env) (data : JsValue) : M unit :=
  action <- read_action data ;;
  if strict_eq_string action "skipWaiting" then skipWaiting
  else if strict_eq_string action "clearCache" then
    on_caches (fun s => fold_left (fun s key => caches_delete key s)
                                  (caches_keys s) s)
  else if strict_eq_string action "cacheCDN" then
    on_caches (caches_open CDN_CACHE) ;;;
    addAll env CDN_CACHE cdnUrlsToCache
  else ret tt.

(* ------------------------------------------------------------------ *)
(** ** The earlier revision of the worker

    The revision without the third-party partition has the same
    strategies and the same enforcer; its listeners differ: activation
    keeps three names, the message listener knows two actions, and the
    fetch listener leaves every cross-origin request alone. *)

Module Earlier.

Definition urlsToCache : list string :=
  [ "/"; "/index.html"; "/manifest.json"; "/icons/favicon.png";
    "/offline.html" ].

Definition cacheWhitelist : list string :=
  [CACHE_NAME; DYNAMIC_CACHE; IMAGE_CACHE].

Definition onInstall (env : Env) : M unit :=
  on_caches (caches_open CACHE_NAME) ;;;
  addAll env CACHE_NAME urlsToCache ;;;
  skipWaiting.

Definition onActivate : M unit :=
  on_caches (fun s => prune cacheWhitelist (caches_keys s) s) ;;;
  clients_claim.

Definition route (env : Env) (request : Request) : option Route :=
  if negb (String.eqb (method request) "GET") then None
  else if negb (String.eqb (origin request) (location_origin env)) then None
  else if String.eqb (destination request) "image" then Some Image
  else if includes (url request) "/api/" then Some ApiCall
  else Some Page.

Definition onMessage (data : JsValue) : M unit :=
  action <- read_action data ;;
  if strict_eq_string action "skipWaiting" then skipWaiting
  else if strict_eq_string action "clearCache" then
    on_caches (fun s => fold_left (fun s key => caches_delete key s)
                                  (caches_keys s) s)
  else ret tt.

End Earlier.

(* ------------------------------------------------------------------ *)
(** ** Vocabulary of the statements *)

Definition unique_keys (c : Cache) : Prop := NoDup (cache_keys c).

(** The [m] most recently inserted entries of a partition, in insertion
    order. *)
Definition most_recent (m : nat) (c : Cache) : Cache :=
  skipn (length c - m) c.

(** A write that has landed, followed by the enforcer: open the
    partition, put the entry, run the enforcer.  (This is the order the
    strategies would have if they awaited their put.) *)
Definition write_through (cacheName : string) (maxItems : nat)
  (s : CacheStorage) (w : string * Response) : CacheStorage :=
  limitCacheSize cacheName maxItems
    (in_cache cacheName (cache_put (fst w) (snd w)) (caches_open cacheName s)).

(** The partition as it would be had nothing been evicted. *)
Definition all_writes (writes : list (string * Response)) (c : Cache) : Cache :=
  fold_left (fun c w => cache_put (fst w) (snd w) c) writes c.

(** [(k, r)] is the newest entry of the partition and its only entry for
    [k]. *)
Definition newest (k : string) (r : Response) (c : Cache) : Prop :=
  exists c', c = c' ++ [(k, r)] /\ ~ In k (cache_keys c').

Definition with_caches (s : CacheStorage) (w : World) : World :=
  mkWorld s (fetch_log w) (skipped_waiting w) (clients_claimed w).

(** What the page and image strategies do to the storage on a resolved
    fetch: open the partition, run the enforcer, and then the put, which
    was not awaited, lands. *)
Definition enforce_then_put (cacheName : string) (maxItems : nat)
  (s : CacheStorage) (w : string * Response) : CacheStorage :=
  put_lands cacheName (fst w) (snd w)
    (limitCacheSize cacheName maxItems (caches_open cacheName s)).

Definition whitelisted (whitelist : list string) (p : string * Cache) : bool :=
  array_includes whitelist (fst p).

Definition thrown {A} (c : Completion A) : Prop := exists e, c = Thrown e.

Definition recognized (action : JsValue) : bool :=
  strict_eq_string action "skipWaiting"
  || strict_eq_string action "clearCache"
  || strict_eq_string action "cacheCDN".

(* ------------------------------------------------------------------ *)
(** ** Scenarios used to exercise the statements *)

Module Scenario.

Definition site : string := "https://edupath.example".

Definition ok_response (u : string) : Response := mkResponse 200 [] u.

Definition not_found : Response := mkResponse 404 [] "Not Found".

(** Every fetch is answered with status 200 after 20 ms. *)
Definition online : Env :=
  mkEnv site (fun u => Resolves 20 (ok_response u)) true.

(** Every fetch is rejected after 20 ms. *)
Definition offline : Env := mkEnv site (fun _ => Rejects 20) true.

(** Every fetch is answered with status 404. *)
Definition missing : Env := mkEnv site (fun _ => Resolves 20 not_found) true.

(** No fetch ever settles. *)
Definition stalled : Env := mkEnv site (fun _ => Pending) true.

Definition fresh : World := mkWorld [] [] false false.

Definition installed : World := snd (onInstall online fresh).

Definition page : Request :=
  mkRequest "https://edupath.example/pages/about.html" "GET" "document"
            "edupath.example" site.

Definition picture : Request :=
  mkRequest "https://edupath.example/img/logo.png" "GET" "image"
            "edupath.example" site.


Definition visited : World := snd (handlePageRequest online page installed).

Definition viewed : World := snd (handleImageRequest online picture installed).

End Scenario.

Module InstallScenario.

(** The local assets are served; every third-party fetch is rejected. *)
Definition cdn_down : Env :=
  mkEnv Scenario.site
        (fun u => if String.prefix "https://" u then Rejects 20
                  else Resolves 20 (Scenario.ok_response u))
        true.

(** Everything is served but the placeholder, which answers 404. *)
Definition placeholder_missing : Env :=
  mkEnv Scenario.site
        (fun u => if String.eqb u "/offline.html"
                  then Resolves 20 Scenario.not_found
                  else Resolves 20 (Scenario.ok_response u))
        true.

End InstallScenario.

Module ClassifierScenario.

(** A host that merely contains a configured domain. *)
Definition lookalike : Request :=
  mkRequest "https://cdn.jsdelivr.net.example.com/lib.js" "GET" "script"
            "cdn.jsdelivr.net.example.com"
            "https://cdn.jsdelivr.net.example.com".

End ClassifierScenario.

(* ------------------------------------------------------------------ *)
(** ** Push notifications

    The push and notification-click listeners talk to the host only
    through [showNotification], [notification.close] and
    [clients.openWindow]; these calls are recorded in the order made. *)

(** [!!v] *)
Definition truthy (v : JsValue) : bool :=
  match v with
  | JsUndefined | JsNull => false
  | JsBool b => b
  | JsNumber z => negb (Z.eqb z 0)
  | JsString s => negb (String.eqb s "")
  | JsObject _ => true
  end.

(** [a || b] *)
Definition js_or (a b : JsValue) : JsValue := if truthy a then a else b.

Record NotificationOptions := mkOptions {
  opt_body : JsValue;
  opt_icon : string;
  opt_badge : string;
  opt_vibrate : list Z;
  opt_data : JsValue;
  opt_actions : list (string * string)     (* action, title *)
}.

Inductive HostCall :=
| ShowNotification (title : JsValue) (options : NotificationOptions)
| NotificationClose
| OpenWindow (target : JsValue).

(** [event.data] of a push event: absent, or a payload whose [json()]
    gives a value or throws on text that is not JSON. *)
Inductive PushData :=
| NoPushData
| PushPayload (json : option JsValue).

Inductive PushError := JsonSyntaxError | NullDataTypeError.

(** [event.data ? event.data.json() : {}] *)
Definition push_json (d : PushData) : PushError + JsValue :=
  match d with
  | NoPushData => inr (JsObject [])
  | PushPayload None => inl JsonSyntaxError
  | PushPayload (Some v) => inr v
  end.

(** The push listener: the calls it makes, or the error it dies of. *)
Definition onPush (d : PushData) : PushError + list HostCall :=
  match push_json d with
  | inl e => inl e
  | inr data =>
      match get_prop data "body", get_prop data "url", get_prop data "title" with
      | Some b, Some u, Some t =>
          inr [ ShowNotification
                  (js_or t (JsString "EduPath"))
                  (mkOptions (js_or b (JsString "New update available!"))
                             "/icons/favicon.png"
                             "/icons/favicon.png"
                             [200; 100; 200]%Z
                             (js_or u (JsString "/"))
                             [("open", "Open"); ("close", "Close")]) ]
      | _, _, _ => inl NullDataTypeError
      end
  end.

(** The notification-click listener, given [event.action] and
    [event.notification.data]. *)
Definition onNotificationClick (action : string) (notification_data : JsValue)
  : list HostCall :=
  NotificationClose ::
  (if String.eqb action "open" || String.eqb action ""
   then [OpenWindow (js_or notification_data (JsString "/"))]
   else []).

(* ------------------------------------------------------------------ *)
(** ** The original revision of the worker

    The first revision has one partition and no runtime caching: its
    fetch listener answers every request from the storage when it can and
    from the network otherwise, and activation keeps the one partition.
    (A lookup by a request that is not a GET finds nothing.) *)

Module Original.

Definition onActivate : M unit :=
  on_caches (fun s => prune [CACHE_NAME] (caches_keys s) s).

Definition onFetch (env : Env) (request : Request) : M (option Response) :=
  res <- (if String.eqb (method request) "GET"
          then caches_matchM (url request) else ret None) ;;
  match res with
  | Some r => ret (Some r)
  | None => lift_response (fetch env (url request))
  end.

End Original.

(* ------------------------------------------------------------------ *)
(** ** More vocabulary *)

(** The partition a strategy writes to, if any. *)
Definition own_partition (r : Route) : option string :=
  match r with
  | ThirdParty => Some CDN_CACHE
  | Image => Some IMAGE_CACHE
  | Page => Some DYNAMIC_CACHE
  | PassThrough | ApiCall => None
  end.

(** The world a strategy leaves: the partitions other than its own are as
    they were, and the log of fetches is as it was or one longer by the
    URL of the request. *)
Definition footprint (own : string) (u : string) (w w' : World) : Prop :=
  (forall n, n <> own -> cache_of n (caches w') = cache_of n (caches w)) /\
  (fetch_log w' = fetch_log w \/ fetch_log w' = fetch_log w ++ [u]).

Definition hangs_or_returns {A} (c : Completion A) : Prop :=
  c = Hangs \/ exists a, c = Returned a.

Module RefusalScenario.

(** A partial answer, as a range request gets. *)
Definition partial : Response := mkResponse 206 [] "part".

(** An answer that varies on everything. *)
Definition varying : Response :=
  mkResponse 200 [("Vary", "Accept-Encoding, *")] "body".

(** Every fetch is answered with status 206. *)
Definition ranged : Env :=
  mkEnv Scenario.site (fun _ => Resolves 20 partial) true.

(** Every fetch is answered with [Vary: *]. *)
Definition vary_all : Env :=
  mkEnv Scenario.site (fun _ => Resolves 20 varying) true.

End RefusalScenario.

Module EvictionScenario.

(** Distinct identities, one per number below 200. *)
Definition numbered (i : nat) : string :=
  String.append "/p/" (String (ascii_of_nat (33 + i)) EmptyString).

Definition entries (n : nat) : Cache :=
  map (fun i => (numbered i, Scenario.ok_response (numbered i))) (seq 0 n).

(** A world whose dynamic-pages partition holds exactly 50 entries, and
    one whose images partition holds exactly 100. *)
Definition full_pages : World :=
  mkWorld [(DYNAMIC_CACHE, entries 50)] [] false false.

Definition full_images : World :=
  mkWorld [(IMAGE_CACHE, entries 100)] [] false false.

End EvictionScenario.

Module CdnScenario.

(** A font file, not among the pre-cached third-party URLs. *)
Definition font : Request :=
  mkRequest "https://fonts.gstatic.com/s/inter/v13/inter.woff2" "GET" "font"
            "fonts.gstatic.com" "https://fonts.gstatic.com".

(** A stylesheet of a third-party host. *)
Definition stylesheet : Request :=
  mkRequest "https://cdnjs.cloudflare.com/ajax/libs/x/1.0/x.min.css" "GET"
            "style" "cdnjs.cloudflare.com" "https://cdnjs.cloudflare.com".

(** The world after the font was fetched once. *)
Definition font_cached : World :=
  snd (handleCDNRequest Scenario.online font Scenario.installed).

End CdnScenario.

Module ShellScenario.

(** The start page, written as the manifest writes it (identities are
    compared after resolution against the location of the worker). *)
Definition home : Request :=
  mkRequest "/index.html" "GET" "document" "edupath.example" Scenario.site.

(** The site after an update: every URL answers with new content. *)
Definition updated : Env :=
  mkEnv Scenario.site (fun _ => Resolves 20 (mkResponse 200 [] "updated")) true.

(** A page of the site whose path contains the API marker, and an image
    under it. *)
Definition api_docs : Request :=
  mkRequest "https://edupath.example/docs/api/index.html" "GET" "document"
            "edupath.example" Scenario.site.

(** A request to another origin that is not a configured host. *)
Definition foreign : Request :=
  mkRequest "https://example.org/data.json" "GET" ""
            "example.org" "https://example.org".

End ShellScenario.

(* ================================================================== *)
(** * Properties *)

(** ** The partition store *)

Lemma name_is_pair n a (c : Cache) : name_is n (a, c) = String.eqb a n.
Proof. reflexivity. Qed.

Lemma key_is_pair k a (r : Response) : key_is k (a, r) = String.eqb a k.
Proof. reflexivity. Qed.

Lemma cache_of_app_absent n s t :
  caches_has n s = false -> cache_of n (s ++ t) = cache_of n t.
Proof.
  unfold caches_has, cache_of. induction s as [|[a c] s IH]; simpl; [reflexivity|].
  rewrite name_is_pair. destruct (String.eqb a n); simpl; [discriminate|exact IH].
Qed.

Lemma cache_of_absent n s : caches_has n s = false -> cache_of n s = [].
Proof.
  intros H. rewrite <- (app_nil_r s). rewrite cache_of_app_absent by exact H.
  reflexivity.
Qed.

Lemma cache_of_open n s : cache_of n (caches_open n s) = cache_of n s.
Proof.
  unfold caches_open. destruct (caches_has n s) eqn:E; [reflexivity|].
  rewrite cache_of_app_absent by exact E.
  rewrite (cache_of_absent n s) by exact E.
  unfold cache_of. simpl. rewrite name_is_pair, String.eqb_refl. reflexivity.
Qed.

Lemma cache_of_in_cache_other n n' f s :
  n' <> n -> cache_of n' (in_cache n f s) = cache_of n' s.
Proof.
  intros D. unfold cache_of, in_cache.
  induction s as [|[a c] s IH]; simpl; [reflexivity|].
  rewrite !name_is_pair. destruct (String.eqb a n) eqn:E; simpl.
  - rewrite name_is_pair. apply String.eqb_eq in E. subst a.
    destruct (String.eqb n n') eqn:E'.
    + apply String.eqb_eq in E'. congruence.
    + exact IH.
  - rewrite name_is_pair. destruct (String.eqb a n'); [reflexivity|exact IH].
Qed.

Lemma cache_of_open_other n n' s :
  n' <> n -> cache_of n' (caches_open n s) = cache_of n' s.
Proof.
  intros D. unfold caches_open. destruct (caches_has n s); [reflexivity|].
  unfold cache_of. induction s as [|[a c] s IH]; simpl.
  - rewrite name_is_pair. destruct (String.eqb n n') eqn:E; [|reflexivity].
    apply String.eqb_eq in E. congruence.
  - rewrite name_is_pair. destruct (String.eqb a n'); [reflexivity|exact IH].
Qed.

Lemma cache_delete_absent k c :
  ~ In k (cache_keys c) -> cache_delete k c = c.
Proof.
  unfold cache_delete, cache_keys. induction c as [|[a r] c IH]; simpl; [reflexivity|].
  intros H. rewrite key_is_pair. destruct (String.eqb a k) eqn:E.
  - apply String.eqb_eq in E. tauto.
  - simpl. f_equal. apply IH. tauto.
Qed.

Lemma cache_delete_oldest k r c :
  unique_keys ((k, r) :: c) -> cache_delete k ((k, r) :: c) = c.
Proof.
  unfold unique_keys. simpl. intros H. inversion H as [|? ? Hn Hc]; subst.
  unfold cache_delete. simpl. rewrite key_is_pair, String.eqb_refl. simpl.
  apply cache_delete_absent, Hn.
Qed.

Lemma cache_keys_delete k c :
  cache_keys (cache_delete k c) =
  filter (fun a => negb (String.eqb a k)) (cache_keys c).
Proof.
  unfold cache_keys, cache_delete. induction c as [|[a r] c IH]; simpl; [reflexivity|].
  rewrite key_is_pair. destruct (String.eqb a k); simpl; [exact IH|].
  f_equal. exact IH.
Qed.

Lemma unique_keys_delete k c : unique_keys c -> unique_keys (cache_delete k c).
Proof.
  unfold unique_keys. rewrite cache_keys_delete. apply NoDup_filter.
Qed.

Lemma not_in_keys_delete k c : ~ In k (cache_keys (cache_delete k c)).
Proof.
  rewrite cache_keys_delete. rewrite filter_In. intros [_ H].
  rewrite String.eqb_refl in H. discriminate.
Qed.

Lemma unique_keys_put k r c : unique_keys c -> unique_keys (cache_put k r c).
Proof.
  intros H. unfold unique_keys, cache_put, cache_keys. rewrite map_app. simpl.
  apply NoDup_app; [apply unique_keys_delete, H | repeat constructor; intros [] | ].
  intros a Ha [<-|[]]. exact (not_in_keys_delete _ _ Ha).
Qed.

Lemma unique_keys_most_recent m c : unique_keys c -> unique_keys (most_recent m c).
Proof.
  unfold unique_keys, most_recent, cache_keys. intros H.
  rewrite <- (firstn_skipn (length c - m) c) in H. rewrite map_app in H.
  apply NoDup_app_remove_l in H. exact H.
Qed.

Lemma most_recent_length m c : length (most_recent m c) = Nat.min m (length c).
Proof. unfold most_recent. rewrite length_skipn. lia. Qed.

Lemma most_recent_within m c : length c <= m -> most_recent m c = c.
Proof.
  intros H. unfold most_recent. replace (length c - m) with 0 by lia. reflexivity.
Qed.

Lemma cache_keys_length (c : Cache) : length (cache_keys c) = length c.
Proof. apply length_map. Qed.

Lemma cache_of_after_delete n k s :
  cache_of n (in_cache n (cache_delete k) (caches_open n s)) =
  cache_delete k (cache_of n s).
Proof.
  rewrite cache_of_in_cache by apply caches_has_open.
  rewrite cache_of_open. reflexivity.
Qed.

(** Case analysis along the enforcer's recursion: the partition is empty,
    over the bound (one deletion and a recursive call), or within it. *)
Ltac enforcer_cases name maxItems s :=
  funelim (limitCacheSize name maxItems s);
  repeat match goal with
         | H : @eq (sigma _) _ _ |- _ => clear H
         | H : context [cache_of _ (caches_open _ _)] |- _ =>
             rewrite cache_of_open in H
         | H : context [cache_of _ (in_cache _ (cache_delete _) (caches_open _ _))] |- _ =>
             rewrite cache_of_after_delete in H
         | H : Nat.ltb _ _ = true |- _ => apply Nat.ltb_lt in H
         | H : Nat.ltb _ _ = false |- _ => apply Nat.ltb_ge in H
         | |- context [cache_of _ (caches_open _ _)] => rewrite cache_of_open
         end.

(** What the enforcer leaves in its partition. *)
Lemma limitCacheSize_cache_of cacheName maxItems s :
  unique_keys (cache_of cacheName s) ->
  cache_of cacheName (limitCacheSize cacheName maxItems s) =
  most_recent maxItems (cache_of cacheName s).
Proof.
  enforcer_cases cacheName maxItems s; intros U.
  - destruct (cache_of cacheName s); [reflexivity|discriminate].
  - destruct (cache_of cacheName s) as [|[a r] c] eqn:E; [discriminate|].
    cbn [cache_keys map fst] in e. injection e as -> Hk.
    rewrite cache_delete_oldest in H by exact U.
    rewrite H by (inversion U; assumption).
    unfold most_recent. simpl length.
    subst keys. simpl in e0. rewrite length_map in e0.
    replace (S (length c) - maxItems) with (S (length c - maxItems)) by lia.
    reflexivity.
  - symmetry. apply most_recent_within.
    rewrite <- cache_keys_length, e. exact e0.
Qed.

(** The bound holds whatever the partition held. *)
Lemma limitCacheSize_bound cacheName maxItems s :
  length (cache_of cacheName (limitCacheSize cacheName maxItems s)) <= maxItems.
Proof.
  enforcer_cases cacheName maxItems s.
  - rewrite <- cache_keys_length, e. simpl. lia.
  - assumption.
  - rewrite <- cache_keys_length, e. exact e0.
Qed.

(** Other partitions are not touched. *)
Lemma limitCacheSize_other cacheName maxItems s n :
  n <> cacheName ->
  cache_of n (limitCacheSize cacheName maxItems s) = cache_of n s.
Proof.
  intros D. funelim (limitCacheSize cacheName maxItems s);
    repeat match goal with H : @eq (sigma _) _ _ |- _ => clear H end.
  - apply cache_of_open_other, D.
  - rewrite H by exact D. rewrite cache_of_in_cache_other by exact D.
    apply cache_of_open_other, D.
  - apply cache_of_open_other, D.
Qed.

(** ** Writes followed by the enforcer *)

Lemma most_recent_app m (x d : Cache) :
  m <= length d -> most_recent m (x ++ d) = most_recent m d.
Proof.
  intros H. unfold most_recent. rewrite length_app, skipn_app.
  rewrite skipn_all2 by lia. simpl. f_equal. lia.
Qed.

Lemma cache_delete_app k (a b : Cache) :
  cache_delete k (a ++ b) = cache_delete k a ++ cache_delete k b.
Proof. apply filter_app. Qed.

Lemma cache_delete_removes_one k c :
  unique_keys c -> length c <= S (length (cache_delete k c)).
Proof.
  induction c as [|[a r] c IH]; intros U; [simpl; lia|].
  destruct (String.eqb a k) eqn:E.
  - apply String.eqb_eq in E. subst a. rewrite cache_delete_oldest by exact U.
    simpl. lia.
  - unfold cache_delete in *. simpl. rewrite key_is_pair, E. simpl.
    inversion U; subst. specialize (IH ltac:(assumption)). lia.
Qed.

Lemma cache_put_length k r c :
  unique_keys c -> length c <= length (cache_put k r c).
Proof.
  intros U. unfold cache_put. rewrite length_app. simpl.
  pose proof (cache_delete_removes_one k c U). lia.
Qed.

(** Evicting before a write loses nothing the write and the next eviction
    would have kept. *)
Lemma most_recent_put m k r c :
  unique_keys c ->
  most_recent m (cache_put k r (most_recent m c)) =
  most_recent m (cache_put k r c).
Proof.
  intros U. destruct (Nat.le_gt_cases (length c) m) as [L|L].
  - rewrite (most_recent_within m c L). reflexivity.
  - pose proof (unique_keys_most_recent m c U) as UB.
    pose proof (most_recent_length m c) as LB.
    pose proof (cache_put_length k r _ UB) as LP.
    assert (E : cache_put k r c =
                cache_delete k (firstn (length c - m) c)
                ++ cache_put k r (most_recent m c)).
    { unfold cache_put, most_recent.
      rewrite app_assoc, <- cache_delete_app, firstn_skipn. reflexivity. }
    rewrite E. symmetry. apply most_recent_app. lia.
Qed.

Lemma write_through_cache_of cacheName maxItems s w :
  unique_keys (cache_of cacheName s) ->
  cache_of cacheName (write_through cacheName maxItems s w) =
  most_recent maxItems (cache_put (fst w) (snd w) (cache_of cacheName s)).
Proof.
  intros U. unfold write_through.
  rewrite limitCacheSize_cache_of;
    rewrite cache_of_in_cache, cache_of_open by apply caches_has_open.
  - reflexivity.
  - apply unique_keys_put, U.
Qed.

Lemma write_through_other cacheName maxItems s w n :
  n <> cacheName ->
  cache_of n (write_through cacheName maxItems s w) = cache_of n s.
Proof.
  intros D. unfold write_through.
  rewrite limitCacheSize_other, cache_of_in_cache_other by exact D.
  apply cache_of_open_other, D.
Qed.

Lemma all_writes_unique writes c : unique_keys c -> unique_keys (all_writes writes c).
Proof.
  revert c. induction writes as [|w ws IH]; intros c U; [exact U|].
  simpl. apply IH, unique_keys_put, U.
Qed.

Lemma all_writes_snoc ws w c :
  all_writes (ws ++ [w]) c = cache_put (fst w) (snd w) (all_writes ws c).
Proof. unfold all_writes. rewrite fold_left_app. reflexivity. Qed.

Lemma write_sequence_cache_of cacheName maxItems writes s0 :
  unique_keys (cache_of cacheName s0) ->
  length (cache_of cacheName s0) <= maxItems ->
  let s := fold_left (write_through cacheName maxItems) writes s0 in
  unique_keys (cache_of cacheName s) /\
  cache_of cacheName s =
  most_recent maxItems (all_writes writes (cache_of cacheName s0)).
Proof.
  intros U L. induction writes as [|w ws IH] using rev_ind; simpl.
  - split; [exact U|]. symmetry. apply most_recent_within, L.
  - rewrite fold_left_app. simpl in *. destruct IH as [IU IE].
    rewrite write_through_cache_of by exact IU. split.
    + apply unique_keys_most_recent, unique_keys_put, IU.
    + rewrite IE, all_writes_snoc. apply most_recent_put.
      apply all_writes_unique, U.
Qed.

(** Within the bound the enforcer only opens the partition. *)
Lemma limitCacheSize_within cacheName maxItems s :
  length (cache_of cacheName s) <= maxItems ->
  limitCacheSize cacheName maxItems s = caches_open cacheName s.
Proof.
  enforcer_cases cacheName maxItems s; intros L; try reflexivity.
  rewrite <- cache_keys_length, e in L. lia.
Qed.

(** Over the bound one round deletes [keys[0]] and starts again. *)
Lemma limitCacheSize_over cacheName maxItems s k keys :
  cache_keys (cache_of cacheName s) = k :: keys ->
  maxItems < length (k :: keys) ->
  limitCacheSize cacheName maxItems s =
  limitCacheSize cacheName maxItems
    (in_cache cacheName (cache_delete k) (caches_open cacheName s)).
Proof.
  enforcer_cases cacheName maxItems s; intros E L.
  - congruence.
  - replace k with k0 by congruence. reflexivity.
  - rewrite e in E. injection E as -> ->. lia.
Qed.

(** ** The entry just written survives the enforcer *)

Lemma newest_put k r c : newest k r (cache_put k r c).
Proof.
  exists (cache_delete k c). split; [reflexivity|apply not_in_keys_delete].
Qed.

Lemma newest_match k r c : newest k r c -> cache_match k c = Some r.
Proof.
  intros [c' [-> N]]. unfold cache_match.
  induction c' as [|[a x] c' IH]; simpl.
  - rewrite key_is_pair, String.eqb_refl. reflexivity.
  - rewrite key_is_pair. destruct (String.eqb a k) eqn:E.
    + apply String.eqb_eq in E. subst a. exfalso. apply N. left. reflexivity.
    + apply IH. intros I. apply N. right. exact I.
Qed.

Lemma newest_delete_oldest k r c k0 keys :
  newest k r c -> cache_keys c = k0 :: keys -> 1 < length c ->
  newest k r (cache_delete k0 c).
Proof.
  intros [c' [-> N]] E L.
  destruct c' as [|[a x] c']; [simpl in L; lia|].
  simpl in E. injection E as -> _.
  assert (D : String.eqb k k0 = false).
  { apply String.eqb_neq. intros ->. apply N. left. reflexivity. }
  exists (cache_delete k0 ((k0, x) :: c')). split.
  - rewrite cache_delete_app. f_equal. unfold cache_delete. simpl.
    rewrite key_is_pair, D. reflexivity.
  - rewrite cache_keys_delete, filter_In. intros [I _]. exact (N I).
Qed.

Lemma limitCacheSize_keeps_newest cacheName maxItems s k r :
  1 <= maxItems ->
  newest k r (cache_of cacheName s) ->
  newest k r (cache_of cacheName (limitCacheSize cacheName maxItems s)).
Proof.
  revert k r. enforcer_cases cacheName maxItems s; intros k r M Nw;
    try exact Nw.
  apply H; [exact M|]. eapply newest_delete_oldest; [exact Nw|exact e|].
  rewrite <- cache_keys_length, e. lia.
Qed.

Lemma write_through_keeps_written cacheName maxItems s k r :
  1 <= maxItems ->
  cache_match k (cache_of cacheName (write_through cacheName maxItems s (k, r)))
  = Some r.
Proof.
  intros M. apply newest_match. unfold write_through.
  apply limitCacheSize_keeps_newest; [exact M|].
  rewrite cache_of_in_cache, cache_of_open by apply caches_has_open.
  apply newest_put.
Qed.

(* ------------------------------------------------------------------ *)
(** ** The page and image strategies *)


Lemma caches_has_limitCacheSize cacheName maxItems s :
  caches_has cacheName (limitCacheSize cacheName maxItems s) = true.
Proof.
  funelim (limitCacheSize cacheName maxItems s);
    repeat match goal with H : @eq (sigma _) _ _ |- _ => clear H end;
    try apply caches_has_open.
  assumption.
Qed.

(** What a strategy's put and enforcer leave in the strategy's partition
    and in the others. *)
Lemma enforce_then_put_cache_of cacheName maxItems s k r :
  cache_of cacheName (enforce_then_put cacheName maxItems s (k, r)) =
  let c := cache_of cacheName
             (limitCacheSize cacheName maxItems (caches_open cacheName s)) in
  if storable r then cache_put k r c else c.
Proof.
  unfold enforce_then_put, put_lands. cbn [fst snd].
  destruct (storable r); [|reflexivity].
  apply cache_of_in_cache, caches_has_limitCacheSize.
Qed.

Lemma enforce_then_put_keeps_written cacheName maxItems s k r :
  storable r = true ->
  cache_match k (cache_of cacheName (enforce_then_put cacheName maxItems s (k, r)))
  = Some r.
Proof.
  intros S. rewrite enforce_then_put_cache_of, S. cbn zeta.
  apply newest_match, newest_put.
Qed.

Lemma enforce_then_put_other cacheName maxItems s w n :
  n <> cacheName ->
  cache_of n (enforce_then_put cacheName maxItems s w) = cache_of n s.
Proof.
  intros D. unfold enforce_then_put, put_lands.
  destruct (storable (snd w)).
  - rewrite cache_of_in_cache_other, limitCacheSize_other by exact D.
    apply cache_of_open_other, D.
  - rewrite limitCacheSize_other by exact D. apply cache_of_open_other, D.
Qed.

(** The page strategy when the network answers: the partition is opened,
    the enforcer runs, the put lands, and the answer is returned. *)
Lemma handlePageRequest_online env request w t r :
  network env (url request) = Resolves t r ->
  handlePageRequest env request w =
  (Returned (Some r),
   with_caches
     (enforce_then_put DYNAMIC_CACHE MAX_DYNAMIC_ITEMS (caches w) (url request, r))
     (log_fetch (url request) w)).
Proof.
  intros N. unfold handlePageRequest, try_catch, bind, fetch. rewrite N.
  reflexivity.
Qed.

(** The page strategy when the network fails: the cached copy, else the
    lookup of the placeholder. *)
Lemma handlePageRequest_offline env request w t :
  network env (url request) = Rejects t ->
  handlePageRequest env request w =
  (Returned match caches_match (url request) (caches w) with
            | Some r => Some r
            | None => caches_match "/offline.html" (caches w)
            end,
   log_fetch (url request) w).
Proof.
  intros N. unfold handlePageRequest, try_catch, bind, fetch. rewrite N.
  unfold caches_matchM. simpl.
  destruct (caches_match (url request) (caches w)); reflexivity.
Qed.

Lemma handleImageRequest_hit env request w r :
  caches_match (url request) (caches w) = Some r ->
  handleImageRequest env request w = (Returned r, w).
Proof.
  intros H. unfold handleImageRequest, bind, caches_matchM. rewrite H.
  reflexivity.
Qed.

Lemma handleImageRequest_miss_online env request w t r :
  caches_match (url request) (caches w) = None ->
  network env (url request) = Resolves t r ->
  handleImageRequest env request w =
  (Returned r,
   with_caches
     (enforce_then_put IMAGE_CACHE MAX_IMAGE_ITEMS (caches w) (url request, r))
     (log_fetch (url request) w)).
Proof.
  intros H N. unfold handleImageRequest, bind, caches_matchM. rewrite H.
  unfold try_catch, bind, fetch. rewrite N. reflexivity.
Qed.

Lemma handleImageRequest_miss_offline env request w t :
  caches_match (url request) (caches w) = None ->
  network env (url request) = Rejects t ->
  handleImageRequest env request w =
  (Returned image_unavailable, log_fetch (url request) w).
Proof.
  intros H N. unfold handleImageRequest, bind, caches_matchM. rewrite H.
  unfold try_catch, bind, fetch. rewrite N. reflexivity.
Qed.

(** The enforcer does its part: writes that have landed, each followed
    by the enforcer, leave at most [maxItems] entries, and these are the
    [maxItems] most recently inserted ones in insertion order.  The
    enforcer leaves a partition within its bound as it is, and over the
    bound each of its rounds removes exactly the oldest entry. *)
Theorem eviction_keeps_most_recent :
  forall (cacheName : string) (maxItems : nat) (s0 : CacheStorage)
         (writes : list (string * Response)),
    unique_keys (cache_of cacheName s0) ->
    length (cache_of cacheName s0) <= maxItems ->
    let s := fold_left (write_through cacheName maxItems) writes s0 in
    length (cache_of cacheName s) <= maxItems /\
    cache_of cacheName s =
      most_recent maxItems (all_writes writes (cache_of cacheName s0)) /\
    (forall s1, length (cache_of cacheName s1) <= maxItems ->
       cache_of cacheName (limitCacheSize cacheName maxItems s1) =
       cache_of cacheName s1) /\
    (forall s1 k r c,
       cache_of cacheName s1 = (k, r) :: c ->
       unique_keys ((k, r) :: c) ->
       maxItems < length ((k, r) :: c) ->
       let s2 := in_cache cacheName (cache_delete k) (caches_open cacheName s1) in
       cache_of cacheName s2 = c /\
       limitCacheSize cacheName maxItems s1 =
       limitCacheSize cacheName maxItems s2).
Proof.
  intros cacheName maxItems s0 writes U L s.
  destruct (write_sequence_cache_of cacheName maxItems writes s0 U L) as [_ E].
  fold s in E. split; [|split; [|split]].
  - rewrite E, most_recent_length. lia.
  - exact E.
  - intros s1 L1. rewrite limitCacheSize_within by exact L1.
    apply cache_of_open.
  - intros s1 k r c C1 U1 L1 s2. split.
    + unfold s2. rewrite cache_of_after_delete, C1.
      apply cache_delete_oldest, U1.
    + apply limitCacheSize_over with (keys := cache_keys c).
      * rewrite C1. reflexivity.
      * cbn [length] in *. rewrite cache_keys_length. exact L1.
Qed.

Example limitCacheSize_demo :
  limitCacheSize "p" 2
    [("p", [("a", mkResponse 200 [] "1"); ("b", mkResponse 200 [] "2");
            ("c", mkResponse 200 [] "3"); ("d", mkResponse 200 [] "4")])]
  = [("p", [("c", mkResponse 200 [] "3"); ("d", mkResponse 200 [] "4")])].
Proof. reflexivity. Qed.

Example write_through_demo :
  fold_left (write_through "p" 2)
    [("a", mkResponse 200 [] "1"); ("b", mkResponse 200 [] "2");
     ("a", mkResponse 200 [] "3"); ("c", mkResponse 200 [] "4")] []
  = [("p", [("a", mkResponse 200 [] "3"); ("c", mkResponse 200 [] "4")])].
Proof. reflexivity. Qed.

Lemma eviction_keeps_most_recent_witness :
  let writes := [("a", mkResponse 200 [] "1"); ("b", mkResponse 200 [] "2");
                 ("c", mkResponse 200 [] "3")] in
  let s := fold_left (write_through "p" 2) writes [] in
  (unique_keys (cache_of "p" []) /\ length (cache_of "p" []) <= 2) /\
  length (cache_of "p" s) <= 2 /\
  cache_of "p" s = most_recent 2 (all_writes writes (cache_of "p" [])).
Proof.
  intros writes s.
  assert (U : unique_keys (cache_of "p" [])) by constructor.
  assert (L : length (cache_of "p" []) <= 2) by (simpl; lia).
  split; [split; assumption|].
  pose proof (eviction_keeps_most_recent "p" 2 [] writes U L) as T.
  split; [exact (proj1 T) | exact (proj1 (proj2 T))].
Defined.

Lemma cache_match_absent k c :
  cache_match k c = None -> ~ In k (cache_keys c).
Proof.
  unfold cache_match, cache_keys. induction c as [|[a r] c IH]; simpl.
  - intros _ [].
  - rewrite key_is_pair. destruct (String.eqb a k) eqn:E; [discriminate|].
    apply String.eqb_neq in E. intros M [X|X]; [contradiction|].
    exact (IH M X).
Qed.

(** The strategies do not await their put: the enforcer has read the
    keys when the entry lands, so a successful request for an identity
    that is not in the partition leaves one entry more than the enforcer
    left. *)
Lemma enforce_then_put_one_over cacheName maxItems s k r :
  unique_keys (cache_of cacheName s) ->
  cache_match k (cache_of cacheName s) = None ->
  storable r = true ->
  maxItems <= length (cache_of cacheName s) ->
  length (cache_of cacheName (enforce_then_put cacheName maxItems s (k, r)))
  = S maxItems.
Proof.
  intros U Miss S L. rewrite enforce_then_put_cache_of, S. cbn zeta.
  rewrite limitCacheSize_cache_of; rewrite cache_of_open; [|exact U].
  unfold cache_put. rewrite length_app. cbn [length].
  rewrite cache_delete_absent.
  - rewrite most_recent_length. lia.
  - intros I. apply (cache_match_absent k _ Miss).
    unfold most_recent, cache_keys in *.
    rewrite <- (firstn_skipn (length (cache_of cacheName s) - maxItems)
                  (cache_of cacheName s)).
    rewrite map_app. apply in_or_app. right. exact I.
Qed.

(** C1. The put of the page and image strategies is not awaited, so the
    enforcer runs on the partition as it was before the write.  A
    successful page request on a dynamic-pages partition holding exactly
    50 entries leaves 51 entries, the oldest still among them; a
    successful image request on an images partition holding exactly 100
    leaves 101. *)
Theorem unawaited_put_exceeds_bound :
  (MAX_DYNAMIC_ITEMS = 50 /\
   length (cache_of DYNAMIC_CACHE (caches EvictionScenario.full_pages)) = 50 /\
   length (cache_of DYNAMIC_CACHE
             (caches (snd (handlePageRequest Scenario.online Scenario.page
                             EvictionScenario.full_pages)))) = 51 /\
   cache_match (EvictionScenario.numbered 0)
     (cache_of DYNAMIC_CACHE
        (caches (snd (handlePageRequest Scenario.online Scenario.page
                        EvictionScenario.full_pages))))
   = Some (Scenario.ok_response (EvictionScenario.numbered 0))) /\
  (MAX_IMAGE_ITEMS = 100 /\
   length (cache_of IMAGE_CACHE (caches EvictionScenario.full_images)) = 100 /\
   length (cache_of IMAGE_CACHE
             (caches (snd (handleImageRequest Scenario.online Scenario.picture
                             EvictionScenario.full_images)))) = 101).
Proof. repeat split; vm_compute; reflexivity. Qed.

(** Requests the listener classifies are answered by the strategy of their
    class. *)
Lemma onFetch_dispatch env request :
  onFetch env request =
  match route env request with
  | None => None
  | Some ThirdParty => Some (lift_response (handleCDNRequest env request))
  | Some PassThrough => Some (lift_response (fetch env (url request)))
  | Some Image => Some (lift_response (handleImageRequest env request))
  | Some ApiCall => Some (lift_response (handleApiRequest env request))
  | Some Page => Some (handlePageRequest env request)
  end.
Proof. reflexivity. Qed.



Example installed_placeholder :
  caches_match "/offline.html" (caches Scenario.installed)
  = Some (Scenario.ok_response "/offline.html").
Proof. reflexivity. Qed.


(** The third-party strategy, by contrast, stores only status 200. *)
Lemma handleCDNRequest_skips_non_200 env request w t r :
  caches_match (url request) (caches w) = None ->
  network env (url request) = Resolves t r ->
  status r <> 200%N ->
  handleCDNRequest env request w = (Returned r, log_fetch (url request) w).
Proof.
  intros Miss N S. unfold handleCDNRequest, try_catch, bind, caches_matchM.
  rewrite Miss. unfold fetch. rewrite N.
  destruct (N.eqb (status r) 200) eqn:E; [apply N.eqb_eq in E; contradiction|].
  reflexivity.
Qed.

(** The page and image strategies put whatever the network answered,
    whatever its status; every answer the Cache accepts is stored. *)
Lemma page_and_image_write_any_status env request w t r :
  network env (url request) = Resolves t r ->
  storable r = true ->
  cache_match (url request)
    (cache_of DYNAMIC_CACHE (caches (snd (handlePageRequest env request w))))
  = Some r /\
  (caches_match (url request) (caches w) = None ->
   cache_match (url request)
     (cache_of IMAGE_CACHE (caches (snd (handleImageRequest env request w))))
   = Some r).
Proof.
  intros N S. split.
  - rewrite (handlePageRequest_online env request w t r N).
    cbn [snd caches with_caches]. apply enforce_then_put_keeps_written, S.
  - intros Miss.
    rewrite (handleImageRequest_miss_online env request w t r Miss N).
    cbn [snd caches with_caches]. apply enforce_then_put_keeps_written, S.
Qed.

(** C2. Against the design document: a 404 answer to a page request and to
    an image request is returned to the caller and is also stored, in
    dynamic-pages and in images respectively. *)
Theorem not_found_answers_are_stored :
  (fst (handlePageRequest Scenario.missing Scenario.page Scenario.fresh)
   = Returned (Some Scenario.not_found) /\
   caches (snd (handlePageRequest Scenario.missing Scenario.page Scenario.fresh))
   = [(DYNAMIC_CACHE, [(url Scenario.page, Scenario.not_found)])]) /\
  (fst (handleImageRequest Scenario.missing Scenario.picture Scenario.fresh)
   = Returned Scenario.not_found /\
   caches (snd (handleImageRequest Scenario.missing Scenario.picture Scenario.fresh))
   = [(IMAGE_CACHE, [(url Scenario.picture, Scenario.not_found)])]).
Proof. repeat split. Qed.

(** C8. An image request whose identity has a cached entry is answered
    with that entry; the world, and with it the log of fetches, is left as
    it was. *)
Theorem image_cache_hit_skips_network :
  forall (env : Env) (request : Request) (w : World) (cached : Response),
    caches_match (url request) (caches w) = Some cached ->
    handleImageRequest env request w = (Returned cached, w) /\
    fetch_log (snd (handleImageRequest env request w)) = fetch_log w /\
    (route env request = Some Image ->
     exists answer, onFetch env request = Some answer /\
                    answer w = (Returned (Some cached), w)).
Proof.
  intros env request w cached Hit.
  pose proof (handleImageRequest_hit env request w cached Hit) as E.
  rewrite E. repeat split.
  intros R. rewrite onFetch_dispatch, R. eexists. split; [reflexivity|].
  unfold lift_response, bind. rewrite E. reflexivity.
Qed.

Lemma image_cache_hit_skips_network_witness :
  caches_match (url Scenario.picture) (caches Scenario.viewed)
  = Some (Scenario.ok_response (url Scenario.picture)) /\
  handleImageRequest Scenario.stalled Scenario.picture Scenario.viewed
  = (Returned (Scenario.ok_response (url Scenario.picture)), Scenario.viewed).
Proof.
  assert (H : caches_match (url Scenario.picture) (caches Scenario.viewed)
              = Some (Scenario.ok_response (url Scenario.picture)))
    by reflexivity.
  split; [exact H|].
  exact (proj1 (image_cache_hit_skips_network Scenario.stalled Scenario.picture
                  Scenario.viewed _ H)).
Defined.

(* ------------------------------------------------------------------ *)
(** ** The API strategy *)



(** The strategy always returns, and touches nothing but the fetch log. *)
Lemma handleApiRequest_returns env request w :
  exists r, handleApiRequest env request w
            = (Returned r, log_fetch (url request) w).
Proof.
  unfold handleApiRequest, try_catch, race_fetch_timeout.
  destruct (network env (url request)) as [t r|t|];
    try destruct (fetch_wins env t); eexists; reflexivity.
Qed.

Example network_error_json_chars :
  map nat_of_ascii (list_ascii_of_string network_error_json) =
  [123; 34; 101; 114; 114; 111; 114; 34; 58; 34; 78; 101; 116; 119; 111; 114;
   107; 32; 101; 114; 114; 111; 114; 34; 44; 34; 111; 102; 102; 108; 105;
   110; 101; 34; 58; 116; 114; 117; 101; 125].
Proof. reflexivity. Qed.



(* ------------------------------------------------------------------ *)
(** ** Activation *)

Lemma array_includes_In l x : array_includes l x = true <-> In x l.
Proof.
  unfold array_includes. rewrite existsb_exists. split.
  - intros [y [I E]]. apply String.eqb_eq in E. subst y. exact I.
  - intros I. exists x. split; [exact I|apply String.eqb_refl].
Qed.

Lemma filter_all {A} (f : A -> bool) (l : list A) :
  (forall x, In x l -> f x = true) -> filter f l = l.
Proof.
  induction l as [|a l IH]; simpl; intros H; [reflexivity|].
  rewrite (H a) by (left; reflexivity). f_equal. apply IH.
  intros x I. apply H. right. exact I.
Qed.

Lemma filter_filter {A} (f g : A -> bool) (l : list A) :
  filter f (filter g l) = filter (fun x => g x && f x) l.
Proof.
  induction l as [|a l IH]; simpl; [reflexivity|].
  destruct (g a); simpl; [destruct (f a)|]; rewrite IH; reflexivity.
Qed.

(** The deletions taken in any order leave the partitions that are
    whitelisted or were not named in the order. *)
Lemma prune_filter whitelist order s :
  prune whitelist order s =
  filter (fun p => whitelisted whitelist p
                   || negb (array_includes order (fst p))) s.
Proof.
  unfold prune. revert s. induction order as [|key order IH]; intros s; simpl.
  - symmetry. apply filter_all. intros x _. apply orb_true_r.
  - rewrite IH. destruct (array_includes whitelist key) eqn:W; simpl.
    + apply filter_ext. intros [a c]. unfold whitelisted. simpl.
      destruct (String.eqb a key) eqn:E; [|reflexivity].
      apply String.eqb_eq in E. subst a. rewrite W. reflexivity.
    + unfold caches_delete. rewrite filter_filter. apply filter_ext.
      intros [a c]. unfold whitelisted. rewrite name_is_pair. simpl.
      destruct (String.eqb a key) eqn:E; [|reflexivity].
      apply String.eqb_eq in E. subst a. rewrite W. reflexivity.
Qed.

Lemma prune_all_keys whitelist order s :
  (forall n, In n (caches_keys s) -> In n order) ->
  prune whitelist order s = filter (whitelisted whitelist) s.
Proof.
  intros H. rewrite prune_filter. apply filter_ext_in. intros [a c] I.
  assert (O : array_includes order a = true).
  { apply array_includes_In, H. unfold caches_keys.
    apply (in_map fst) in I. exact I. }
  simpl. rewrite O. apply orb_false_r.
Qed.

Lemma cache_of_filter (f : string -> bool) n s :
  f n = true -> cache_of n (filter (fun p => f (fst p)) s) = cache_of n s.
Proof.
  intros F. unfold cache_of. induction s as [|[a c] s IH]; simpl; [reflexivity|].
  rewrite name_is_pair. destruct (String.eqb a n) eqn:E.
  - apply String.eqb_eq in E. subst a. rewrite F. simpl.
    rewrite name_is_pair, String.eqb_refl. reflexivity.
  - destruct (f a); simpl; [rewrite name_is_pair, E|]; exact IH.
Qed.

Lemma caches_has_filter (f : string -> bool) n s :
  caches_has n (filter (fun p => f (fst p)) s) = f n && caches_has n s.
Proof.
  unfold caches_has. induction s as [|[a c] s IH]; simpl.
  - rewrite andb_false_r. reflexivity.
  - rewrite name_is_pair. destruct (String.eqb a n) eqn:E.
    + apply String.eqb_eq in E. subst a. destruct (f n) eqn:F; simpl.
      * rewrite name_is_pair, String.eqb_refl. reflexivity.
      * rewrite IH. reflexivity.
    + destruct (f a); simpl; [rewrite name_is_pair, E|]; exact IH.
Qed.

Lemma onActivate_caches w :
  onActivate w =
  (Returned tt,
   mkWorld (filter (whitelisted cacheWhitelist) (caches w))
           (fetch_log w) (skipped_waiting w) true).
Proof.
  unfold onActivate, bind, on_caches, clients_claim. simpl.
  rewrite prune_all_keys by auto. reflexivity.
Qed.

(** C5. Whatever partitions exist and in whatever order the deletions of
    the activate listener are carried out, the partitions left are those
    of the storage whose name is on the whitelist, in their order and
    with their contents: a whitelisted name keeps its partition, any
    other name has none afterwards. *)
Theorem activation_prunes_unlisted :
  forall (s : CacheStorage) (order : list string),
    Permutation order (caches_keys s) ->
    let s' := prune cacheWhitelist order s in
    s' = filter (whitelisted cacheWhitelist) s /\
    s' = caches (snd (onActivate (mkWorld s [] false false))) /\
    (forall n, In n cacheWhitelist ->
               cache_of n s' = cache_of n s /\
               caches_has n s' = caches_has n s) /\
    (forall n, ~ In n cacheWhitelist -> caches_has n s' = false) /\
    cacheWhitelist = [CACHE_NAME; DYNAMIC_CACHE; IMAGE_CACHE; CDN_CACHE].
Proof.
  intros s order P s'.
  assert (E : s' = filter (whitelisted cacheWhitelist) s).
  { apply prune_all_keys. intros n I.
    apply (Permutation_in n (Permutation_sym P) I). }
  split; [exact E|]. split; [|split; [|split]].
  - rewrite onActivate_caches. exact E.
  - intros n I. apply array_includes_In in I. rewrite E. split.
    + apply (cache_of_filter (array_includes cacheWhitelist)), I.
    + unfold whitelisted.
      rewrite (caches_has_filter (array_includes cacheWhitelist)), I.
      reflexivity.
  - intros n NI. rewrite E. unfold whitelisted.
    rewrite (caches_has_filter (array_includes cacheWhitelist)).
    destruct (array_includes cacheWhitelist n) eqn:W; [|reflexivity].
    apply array_includes_In in W. contradiction.
  - reflexivity.
Qed.

(** C9. Activating twice in a row leaves the world activation leaves the
    first time: the same partitions with the same contents. *)
Theorem activation_idempotent :
  forall w : World,
    snd (onActivate (snd (onActivate w))) = snd (onActivate w) /\
    fst (onActivate (snd (onActivate w))) = Returned tt.
Proof.
  intros w. rewrite !onActivate_caches. simpl. split; [|reflexivity].
  f_equal. rewrite filter_filter. apply filter_ext. intros p.
  apply andb_diag.
Qed.

Lemma activation_prunes_unlisted_witness :
  let s := [ ("EduPath-pwa-v0", [("/", mkResponse 200 [] "old")]);
             (CACHE_NAME, [("/", mkResponse 200 [] "new")]);
             ("scratch", []);
             (DYNAMIC_CACHE, [("/a", mkResponse 200 [] "a")]) ] in
  Permutation (rev (caches_keys s)) (caches_keys s) /\
  prune cacheWhitelist (rev (caches_keys s)) s =
  filter (whitelisted cacheWhitelist) s.
Proof.
  intros s.
  assert (P : Permutation (rev (caches_keys s)) (caches_keys s))
    by (apply Permutation_sym, Permutation_rev).
  split; [exact P|].
  exact (proj1 (activation_prunes_unlisted s (rev (caches_keys s)) P)).
Defined.

(* ------------------------------------------------------------------ *)
(** ** Installation *)

Lemma addAll_completion env n urls w :
  fst (addAll env n urls w) =
  if existsb (fun u => fetch_failed (network env u)) urls then Thrown TypeError
  else if existsb (fun u => fetch_pending (network env u)) urls then Hangs
  else Returned tt.
Proof.
  unfold addAll.
  destruct (existsb (fun u => fetch_failed (network env u)) urls);
    [reflexivity|].
  destruct (existsb (fun u => fetch_pending (network env u)) urls);
    reflexivity.
Qed.

Lemma bind_completion {A B} (m : M A) (k : A -> M B) w :
  fst (bind m k w) =
  match fst (m w) with
  | Returned a => fst (k a (snd (m w)))
  | Thrown e => Thrown e
  | Hangs => Hangs
  end.
Proof. unfold bind. destruct (m w) as [[a|e|] w']; reflexivity. Qed.

Lemma existsb_none {A} (f : A -> bool) (l : list A) :
  (forall x, In x l -> f x = false) -> existsb f l = false.
Proof.
  intros H. destruct (existsb f l) eqn:E; [|reflexivity].
  apply existsb_exists in E. destruct E as [x [I E]].
  rewrite (H x I) in E. discriminate.
Qed.

Lemma after_on_caches_completion {B} f (k : M B) w :
  fst ((on_caches f ;;; k) w) = fst (k (snd (on_caches f w))).
Proof. reflexivity. Qed.

Lemma try_catch_swallow_completion (m : M unit) w :
  fst (try_catch m (fun _ => ret tt) w) =
  match fst (m w) with
  | Thrown _ => Returned tt
  | c => c
  end.
Proof. unfold try_catch. destruct (m w) as [[[]|e|] w']; reflexivity. Qed.

Lemma cache_static_assets_completion env w :
  fst (cache_static_assets env w) =
  if existsb (fun u => fetch_failed (network env u)) urlsToCache
  then Thrown TypeError
  else if existsb (fun u => fetch_pending (network env u)) urlsToCache
  then Hangs
  else Returned tt.
Proof.
  unfold cache_static_assets. rewrite after_on_caches_completion.
  apply addAll_completion.
Qed.

(** The third-party step catches what its [addAll] throws. *)
Lemma cache_cdn_resources_completion env w :
  fst (cache_cdn_resources env w) =
  if existsb (fun u => fetch_failed (network env u)) cdnUrlsToCache
  then Returned tt
  else if existsb (fun u => fetch_pending (network env u)) cdnUrlsToCache
  then Hangs
  else Returned tt.
Proof.
  unfold cache_cdn_resources.
  rewrite after_on_caches_completion, try_catch_swallow_completion.
  rewrite addAll_completion.
  destruct (existsb (fun u => fetch_failed (network env u)) cdnUrlsToCache);
    [reflexivity|].
  destruct (existsb (fun u => fetch_pending (network env u)) cdnUrlsToCache);
    reflexivity.
Qed.

Lemma cache_cdn_resources_never_throws env w :
  ~ thrown (fst (cache_cdn_resources env w)).
Proof.
  rewrite cache_cdn_resources_completion. intros [e E].
  destruct (existsb (fun u => fetch_failed (network env u)) cdnUrlsToCache);
    [discriminate|].
  destruct (existsb (fun u => fetch_pending (network env u)) cdnUrlsToCache);
    discriminate.
Qed.

Lemma onInstall_completion env w :
  fst (onInstall env w) =
  match fst (cache_static_assets env w),
        fst (cache_cdn_resources env (snd (cache_static_assets env w))) with
  | Thrown e, _ => Thrown e
  | _, Thrown e => Thrown e
  | Hangs, _ => Hangs
  | _, Hangs => Hangs
  | Returned _, Returned _ => Returned tt
  end.
Proof.
  unfold onInstall. rewrite bind_completion. unfold promise_all2.
  destruct (cache_static_assets env w) as [ra wa]. cbn [fst snd].
  destruct (cache_cdn_resources env wa) as [rb wb]. cbn [fst snd].
  destruct ra as [[]|e|], rb as [[]|e'|]; reflexivity.
Qed.

(** C6. Installation fails exactly when pre-populating static-shell
    fails, which is when the fetch of some entry of the local manifest
    is rejected or answered with something [addAll] does not accept (a
    status outside 200..299, status 206, or [Vary: *]); the third-party
    step never fails, so a failure in it never fails installation; and
    when every local entry is fetched and accepted and no third-party
    fetch stays pending, installation succeeds whatever the third-party
    fetches did. *)
Theorem install_fails_iff_static_fails :
  forall (env : Env) (w : World),
    (thrown (fst (onInstall env w)) <->
     thrown (fst (cache_static_assets env w))) /\
    (thrown (fst (cache_static_assets env w)) <->
     exists u, In u urlsToCache /\ fetch_failed (network env u) = true) /\
    (forall w', ~ thrown (fst (cache_cdn_resources env w'))) /\
    ((forall u, In u urlsToCache ->
                exists t r, network env u = Resolves t r /\ addAll_accepts r = true) ->
     (forall u, In u cdnUrlsToCache -> network env u <> Pending) ->
     fst (onInstall env w) = Returned tt) /\
    (forall u t r,
        In u urlsToCache -> network env u = Resolves t r ->
        status r = 206%N -> thrown (fst (onInstall env w))).
Proof.
  intros env w.
  assert (Static : thrown (fst (cache_static_assets env w)) <->
                   exists u, In u urlsToCache /\
                             fetch_failed (network env u) = true).
  { rewrite cache_static_assets_completion.
    destruct (existsb (fun u => fetch_failed (network env u)) urlsToCache) eqn:F.
    + split; [intros _|intros _; eexists; reflexivity].
      apply existsb_exists in F. exact F.
    + split.
      * intros [e E].
        destruct (existsb (fun u => fetch_pending (network env u)) urlsToCache);
          discriminate.
      * intros X. apply existsb_exists in X. congruence. }
  assert (Install : thrown (fst (onInstall env w)) <->
                    thrown (fst (cache_static_assets env w))).
  { rewrite onInstall_completion.
    pose proof (cache_cdn_resources_never_throws env
                  (snd (cache_static_assets env w))) as NT.
    destruct (fst (cache_static_assets env w)) as [[]|e|];
      destruct (fst (cache_cdn_resources env (snd (cache_static_assets env w))))
        as [[]|e'|];
      split; intros [x X]; try discriminate;
      try (exfalso; apply NT; eexists; reflexivity);
      eexists; reflexivity. }
  split; [exact Install|]. split; [exact Static|]. split; [|split].
  - intros w'. apply cache_cdn_resources_never_throws.
  - intros OK NP. rewrite onInstall_completion.
    rewrite cache_static_assets_completion, cache_cdn_resources_completion.
    assert (F : existsb (fun u => fetch_failed (network env u)) urlsToCache = false).
    { apply existsb_none. intros u I.
      destruct (OK u I) as [t [r [N R]]]. rewrite N.
      cbn [fetch_failed]. rewrite R. reflexivity. }
    assert (P : existsb (fun u => fetch_pending (network env u)) urlsToCache = false).
    { apply existsb_none. intros u I.
      destruct (OK u I) as [t [r [N R]]]. rewrite N. reflexivity. }
    assert (Q : existsb (fun u => fetch_pending (network env u)) cdnUrlsToCache = false).
    { apply existsb_none. intros u I.
      specialize (NP u I). destruct (network env u); try reflexivity.
      contradiction. }
    rewrite F, P, Q.
    destruct (existsb (fun u => fetch_failed (network env u)) cdnUrlsToCache);
      reflexivity.
  - intros u t r I N S. apply Install, Static. exists u. split; [exact I|].
    rewrite N. cbn [fetch_failed]. unfold addAll_accepts, storable.
    rewrite S. reflexivity.
Qed.

Lemma install_fails_iff_static_fails_witness :
  fst (onInstall InstallScenario.cdn_down Scenario.fresh) = Returned tt /\
  thrown (fst (onInstall InstallScenario.placeholder_missing Scenario.fresh)).
Proof.
  split.
  - apply (proj2 (proj2 (proj2 (install_fails_iff_static_fails
                                  InstallScenario.cdn_down Scenario.fresh)))).
    + intros u I. exists 20%N, (Scenario.ok_response u).
      cbv [urlsToCache In] in I.
      repeat (destruct I as [<-|I]; [split; reflexivity|]). contradiction.
    + intros u I. cbv [cdnUrlsToCache In] in I.
      repeat (destruct I as [<-|I]; [discriminate|]). contradiction.
  - apply (proj1 (install_fails_iff_static_fails
                    InstallScenario.placeholder_missing Scenario.fresh)).
    apply (proj1 (proj2 (install_fails_iff_static_fails
                           InstallScenario.placeholder_missing Scenario.fresh))).
    exists "/offline.html". split; [|reflexivity].
    cbv [urlsToCache In]. tauto.
Defined.

(* ------------------------------------------------------------------ *)
(** ** Control messages *)

Lemma recognized_undefined : recognized JsUndefined = false.
Proof. reflexivity. Qed.

Lemma get_prop_missing props name :
  find (fun p => String.eqb (fst p) name) props = None ->
  get_prop (JsObject props) name = Some JsUndefined.
Proof. intros H. simpl. rewrite H. reflexivity. Qed.

(** Reading [action] from a payload that is [null] or [undefined] throws:
    the listener dies of a [TypeError], the world unchanged. *)
Lemma onMessage_nullish_payload env w :
  onMessage env JsNull w = (Thrown TypeError, w) /\
  onMessage env JsUndefined w = (Thrown TypeError, w).
Proof. split; reflexivity. Qed.

(** Over all payloads the statement fails: a message that is [null] has
    no recognized action, and the listener throws on it. *)
Lemma nullish_message_not_ignored :
  ~ (forall (env : Env) (data : JsValue) (w : World),
        (forall action, get_prop data "action" = Some action ->
                        recognized action = false) ->
        onMessage env data w = (Returned tt, w)).
Proof.
  intros H.
  assert (X : onMessage Scenario.online JsNull Scenario.fresh
              = (Returned tt, Scenario.fresh)).
  { apply H. intros action G. discriminate G. }
  discriminate X.
Qed.

(** C7. A message on which [action] can be read (any payload but [null]
    and [undefined]) and reads as [undefined] (the field is missing) or
    as anything other than the three recognized strings makes the handler
    return normally and leaves the world, and so every partition, as it
    was. *)
Theorem unrecognized_message_ignored :
  forall (env : Env) (data action : JsValue) (w : World),
    get_prop data "action" = Some action ->
    recognized action = false ->
    onMessage env data w = (Returned tt, w).
Proof.
  intros env data action w G R. unfold recognized in R.
  apply orb_false_iff in R. destruct R as [R C].
  apply orb_false_iff in R. destruct R as [A B].
  unfold onMessage, bind, read_action. rewrite G. unfold ret at 1.
  rewrite A, B, C. reflexivity.
Qed.

Lemma unrecognized_message_ignored_witness :
  (get_prop (JsObject [("kind", JsString "ping")]) "action" = Some JsUndefined /\
   recognized JsUndefined = false) /\
  onMessage Scenario.online (JsObject [("kind", JsString "ping")])
            Scenario.installed
  = (Returned tt, Scenario.installed) /\
  onMessage Scenario.online (JsObject [("action", JsString "refresh")])
            Scenario.installed
  = (Returned tt, Scenario.installed).
Proof.
  split; [split; reflexivity|]. split.
  - apply (unrecognized_message_ignored Scenario.online
             (JsObject [("kind", JsString "ping")]) JsUndefined
             Scenario.installed); reflexivity.
  - apply (unrecognized_message_ignored Scenario.online
             (JsObject [("action", JsString "refresh")]) (JsString "refresh")
             Scenario.installed); reflexivity.
Defined.

(* ------------------------------------------------------------------ *)
(** ** The classifier *)

Lemma prefix_append sub s :
  String.prefix sub s = true <-> exists post, s = String.append sub post.
Proof.
  revert s. induction sub as [|a sub IH]; intros s.
  - split; [intros _; exists s; reflexivity|intros _; destruct s; reflexivity].
  - destruct s as [|b s].
    + split; [discriminate|]. intros [post E]. discriminate.
    + cbn [String.prefix String.append]. destruct (ascii_dec a b) as [E|D].
      * subst b. split.
        -- intros P. apply IH in P. destruct P as [post E]. exists post.
           rewrite E. reflexivity.
        -- intros [post E]. injection E as E. apply IH. exists post. exact E.
      * split; [discriminate|]. intros [post E]. injection E as E _.
        congruence.
Qed.

(** [includes] is the substring test. *)
Lemma includes_substring s sub :
  includes s sub = true <->
  exists pre post, s = String.append pre (String.append sub post).
Proof.
  induction s as [|b s IH]; cbn [includes].
  - destruct (String.prefix sub "") eqn:P.
    + split; [intros _|reflexivity]. apply prefix_append in P.
      destruct P as [post E]. exists "", post. exact E.
    + split; [discriminate|]. intros [pre [post E]].
      destruct pre as [|c pre]; [|discriminate].
      assert (X : String.prefix sub "" = true)
        by (apply prefix_append; exists post; exact E).
      congruence.
  - destruct (String.prefix sub (String b s)) eqn:P.
    + split; [intros _|reflexivity]. apply prefix_append in P.
      destruct P as [post E]. exists "", post. exact E.
    + split.
      * intros H. apply IH in H. destruct H as [pre [post E]].
        exists (String b pre), post. rewrite E. reflexivity.
      * intros [pre [post E]]. destruct pre as [|c pre].
        -- assert (X : String.prefix sub (String b s) = true)
             by (apply prefix_append; exists post; exact E).
           congruence.
        -- injection E as _ E. apply IH. exists pre, post. exact E.
Qed.

Lemma isCDNResource_substring request :
  isCDNResource request = true <->
  exists domain pre post,
    In domain cdnDomains /\
    hostname request = String.append pre (String.append domain post).
Proof.
  unfold isCDNResource. rewrite existsb_exists. split.
  - intros [d [I H]]. apply includes_substring in H.
    destruct H as [pre [post E]]. exists d, pre, post. split; assumption.
  - intros [d [pre [post [I E]]]]. exists d. split; [exact I|].
    apply includes_substring. exists pre, post. exact E.
Qed.

(** C10. A GET request whose hostname contains one of the six configured
    domains anywhere is classified as third-party and answered by the
    third-party strategy, whatever its origin: the test comes before the
    cross-origin test, which only requests failing it reach. *)
Theorem third_party_match_is_substring :
  forall (env : Env) (request : Request) (domain pre post : string),
    method request = "GET" ->
    In domain cdnDomains ->
    hostname request = String.append pre (String.append domain post) ->
    route env request = Some ThirdParty /\
    onFetch env request = Some (lift_response (handleCDNRequest env request)) /\
    length cdnDomains = 6.
Proof.
  intros env request domain pre post G I H.
  assert (C : isCDNResource request = true).
  { apply isCDNResource_substring. exists domain, pre, post. split; assumption. }
  assert (R : route env request = Some ThirdParty).
  { unfold route. rewrite G, C. reflexivity. }
  split; [exact R|]. split; [|reflexivity].
  rewrite onFetch_dispatch, R. reflexivity.
Qed.

(** A cross-origin GET request is passed through only when the
    third-party test fails. *)
Lemma cross_origin_pass_through env request :
  method request = "GET" ->
  origin request <> location_origin env ->
  route env request =
  Some (if isCDNResource request then ThirdParty else PassThrough).
Proof.
  intros G O. unfold route. rewrite G. simpl.
  destruct (isCDNResource request); [reflexivity|].
  apply String.eqb_neq in O. rewrite O. reflexivity.
Qed.

Lemma third_party_match_is_substring_witness :
  (method ClassifierScenario.lookalike = "GET" /\
   In "cdn.jsdelivr.net" cdnDomains /\
   origin ClassifierScenario.lookalike <> location_origin Scenario.online) /\
  route Scenario.online ClassifierScenario.lookalike = Some ThirdParty.
Proof.
  assert (I : In "cdn.jsdelivr.net" cdnDomains) by (cbv [cdnDomains In]; tauto).
  split; [split; [reflexivity|split; [exact I|discriminate]]|].
  exact (proj1 (third_party_match_is_substring Scenario.online
                  ClassifierScenario.lookalike "cdn.jsdelivr.net" ""
                  ".example.com" eq_refl I eq_refl)).
Defined.

(* ------------------------------------------------------------------ *)
(** ** The earlier revision *)

Lemma earlier_activation_keeps_three_names s order :
  Permutation order (caches_keys s) ->
  prune Earlier.cacheWhitelist order s =
  filter (whitelisted Earlier.cacheWhitelist) s.
Proof.
  intros P. apply prune_all_keys. intros n I.
  apply (Permutation_in n (Permutation_sym P) I).
Qed.

Lemma earlier_activation_twice w :
  snd (Earlier.onActivate (snd (Earlier.onActivate w)))
  = snd (Earlier.onActivate w).
Proof.
  unfold Earlier.onActivate, bind, on_caches, clients_claim.
  cbn [fst snd caches fetch_log skipped_waiting clients_claimed].
  rewrite !prune_all_keys by auto. f_equal.
  rewrite filter_filter. apply filter_ext. intros p. apply andb_diag.
Qed.

Lemma earlier_unknown_action_ignored data action w :
  get_prop data "action" = Some action ->
  strict_eq_string action "skipWaiting" = false ->
  strict_eq_string action "clearCache" = false ->
  Earlier.onMessage data w = (Returned tt, w).
Proof.
  intros G A B. unfold Earlier.onMessage, bind, read_action. rewrite G.
  unfold ret at 1. rewrite A, B. reflexivity.
Qed.

(* ================================================================== *)
(** * Further properties of the code *)

(** ** More on the store *)

Lemma cache_match_app k (a b : Cache) :
  cache_match k (a ++ b) =
  match cache_match k a with
  | Some r => Some r
  | None => cache_match k b
  end.
Proof.
  unfold cache_match. induction a as [|[x r] a IH]; simpl; [reflexivity|].
  rewrite key_is_pair. destruct (String.eqb x k); [reflexivity|exact IH].
Qed.

Lemma cache_match_delete_same k c : cache_match k (cache_delete k c) = None.
Proof.
  unfold cache_match, cache_delete. induction c as [|[x r] c IH]; simpl; [reflexivity|].
  rewrite key_is_pair. destruct (String.eqb x k) eqn:E; simpl; [exact IH|].
  rewrite key_is_pair, E. exact IH.
Qed.

Lemma cache_match_delete_other k k0 c :
  k0 <> k -> cache_match k (cache_delete k0 c) = cache_match k c.
Proof.
  intros D. unfold cache_match, cache_delete.
  induction c as [|[x r] c IH]; simpl; [reflexivity|].
  rewrite !key_is_pair. destruct (String.eqb x k0) eqn:E0; simpl.
  - apply String.eqb_eq in E0. subst x.
    apply String.eqb_neq in D. rewrite D. exact IH.
  - rewrite key_is_pair. destruct (String.eqb x k); [reflexivity|exact IH].
Qed.

Lemma cache_match_put_same k r c : cache_match k (cache_put k r c) = Some r.
Proof. apply newest_match, newest_put. Qed.

Lemma cache_match_put_other k k0 r c :
  k0 <> k -> cache_match k (cache_put k0 r c) = cache_match k c.
Proof.
  intros D. unfold cache_put. rewrite cache_match_app.
  rewrite cache_match_delete_other by exact D.
  destruct (cache_match k c); [reflexivity|].
  unfold cache_match. simpl. rewrite key_is_pair.
  apply String.eqb_neq in D. rewrite D. reflexivity.
Qed.

Lemma in_cache_cons n f a c s :
  in_cache n f ((a, c) :: s) =
  (if String.eqb a n then (a, f c) else (a, c)) :: in_cache n f s.
Proof. reflexivity. Qed.

Lemma in_cache_compose n f g s :
  in_cache n g (in_cache n f s) = in_cache n (fun c => g (f c)) s.
Proof.
  induction s as [|[a c] s IH]; [reflexivity|].
  rewrite !in_cache_cons. destruct (String.eqb a n) eqn:E;
    rewrite in_cache_cons, E, IH; reflexivity.
Qed.

Lemma in_cache_same n s : in_cache n (fun c => c) s = s.
Proof.
  induction s as [|[a c] s IH]; [reflexivity|].
  rewrite in_cache_cons, IH. destruct (String.eqb a n); reflexivity.
Qed.


Lemma caches_match_open k n s : caches_match k (caches_open n s) = caches_match k s.
Proof.
  unfold caches_open. destruct (caches_has n s); [reflexivity|].
  induction s as [|[a c] s IH]; simpl; [reflexivity|].
  destruct (cache_match k c); [reflexivity|exact IH].
Qed.

Lemma caches_match_in_cache_delete k k0 n s :
  k0 <> k ->
  caches_match k (in_cache n (cache_delete k0) s) = caches_match k s.
Proof.
  intros D. induction s as [|[a c] s IH]; [reflexivity|].
  rewrite in_cache_cons. destruct (String.eqb a n); simpl.
  - rewrite cache_match_delete_other by exact D. rewrite IH. reflexivity.
  - rewrite IH. reflexivity.
Qed.

Lemma caches_match_in_cache_put k r n s :
  caches_has n s = true ->
  caches_match k s = None ->
  caches_match k (in_cache n (cache_put k r) s) = Some r.
Proof.
  unfold caches_has. induction s as [|[a c] s IH]; simpl; [discriminate|].
  rewrite name_is_pair. intros H M.
  destruct (cache_match k c) eqn:C; [discriminate|].
  destruct (String.eqb a n); simpl.
  - rewrite cache_match_put_same. reflexivity.
  - rewrite C. apply IH; assumption.
Qed.

Lemma caches_match_in_cache_put_other k k0 r n s :
  k0 <> k ->
  caches_match k (in_cache n (cache_put k0 r) s) = caches_match k s.
Proof.
  intros D. induction s as [|[a c] s IH]; [reflexivity|].
  rewrite in_cache_cons. destruct (String.eqb a n); simpl.
  - rewrite cache_match_put_other by exact D. rewrite IH. reflexivity.
  - rewrite IH. reflexivity.
Qed.

(** ** More on the enforcer *)

(** The enforcer only edits the partition it is called for. *)
Lemma limitCacheSize_shape cacheName maxItems s :
  exists g, limitCacheSize cacheName maxItems s =
            in_cache cacheName g (caches_open cacheName s).
Proof.
  funelim (limitCacheSize cacheName maxItems s);
    repeat match goal with H : @eq (sigma _) _ _ |- _ => clear H end.
  - exists (fun c => c). symmetry. apply in_cache_same.
  - destruct H as [g G]. exists (fun c => g (cache_delete k0 c)).
    rewrite G. rewrite caches_open_present
      by (rewrite caches_has_in_cache; apply caches_has_open).
    apply in_cache_compose.
  - exists (fun c => c). symmetry. apply in_cache_same.
Qed.

Lemma limitCacheSize_caches_match cacheName maxItems s k r :
  1 <= maxItems ->
  newest k r (cache_of cacheName s) ->
  caches_match k (limitCacheSize cacheName maxItems s) = caches_match k s.
Proof.
  revert k r. enforcer_cases cacheName maxItems s; intros k r M Nw.
  - apply caches_match_open.
  - assert (L : 1 < length (cache_of cacheName s))
      by (rewrite <- cache_keys_length, e; lia).
    rewrite (H k r M) by (eapply newest_delete_oldest; eassumption).
    rewrite caches_match_in_cache_delete; [apply caches_match_open|].
    destruct Nw as [c' [E N]]. rewrite E in e, L.
    destruct c' as [|[a x] c']; [simpl in L; lia|].
    simpl in e. injection e as -> _. intros ->. apply N. left. reflexivity.
  - apply caches_match_open.
Qed.

(** X1. Whatever the storage holds, after the enforcer the partition has
    at most [maxItems] entries. *)
Theorem enforcer_bound_unconditional :
  forall (cacheName : string) (maxItems : nat) (s : CacheStorage),
    length (cache_of cacheName (limitCacheSize cacheName maxItems s)) <= maxItems.
Proof.
  intros cacheName maxItems s.
  enforcer_cases cacheName maxItems s.
  - rewrite <- cache_keys_length, e. simpl. lia.
  - assumption.
  - rewrite <- cache_keys_length, e. exact e0.
Qed.


(** X3. Running the enforcer a second time changes nothing. *)
Theorem enforcer_idempotent :
  forall (cacheName : string) (maxItems : nat) (s : CacheStorage),
    limitCacheSize cacheName maxItems (limitCacheSize cacheName maxItems s) =
    limitCacheSize cacheName maxItems s.
Proof.
  intros cacheName maxItems s.
  rewrite limitCacheSize_within by apply limitCacheSize_bound.
  apply caches_open_present, caches_has_limitCacheSize.
Qed.

(** ** More on the strategies *)

Lemma write_through_caches_match cacheName maxItems s k r :
  1 <= maxItems ->
  caches_match k s = None ->
  caches_match k (write_through cacheName maxItems s (k, r)) = Some r.
Proof.
  intros M Miss. unfold write_through.
  rewrite (limitCacheSize_caches_match _ _ _ k r M).
  - apply caches_match_in_cache_put; [apply caches_has_open|].
    rewrite caches_match_open. exact Miss.
  - rewrite cache_of_in_cache, cache_of_open by apply caches_has_open.
    apply newest_put.
Qed.

Lemma cache_match_delete_none k k0 c :
  cache_match k c = None -> cache_match k (cache_delete k0 c) = None.
Proof.
  intros M. destruct (String.eqb k0 k) eqn:E.
  - apply String.eqb_eq in E. subst k0. apply cache_match_delete_same.
  - apply String.eqb_neq in E. rewrite cache_match_delete_other; assumption.
Qed.

Lemma caches_match_in_cache_delete_none k k0 n s :
  caches_match k s = None ->
  caches_match k (in_cache n (cache_delete k0) s) = None.
Proof.
  induction s as [|[a c] s IH]; [reflexivity|].
  rewrite in_cache_cons. simpl.
  destruct (cache_match k c) eqn:C; [discriminate|]. intros M.
  destruct (String.eqb a n); simpl.
  - rewrite cache_match_delete_none by exact C. apply IH, M.
  - rewrite C. apply IH, M.
Qed.

(** The enforcer adds no entry. *)
Lemma limitCacheSize_keeps_miss cacheName maxItems s k :
  caches_match k s = None ->
  caches_match k (limitCacheSize cacheName maxItems s) = None.
Proof.
  funelim (limitCacheSize cacheName maxItems s);
    repeat match goal with H : @eq (sigma _) _ _ |- _ => clear H end;
    intros M; try (rewrite caches_match_open; exact M).
  apply H. apply caches_match_in_cache_delete_none.
  rewrite caches_match_open. exact M.
Qed.

(** An answer the Cache refuses leaves the identity without an entry. *)
Lemma enforce_then_put_refused cacheName maxItems s k r :
  storable r = false ->
  caches_match k s = None ->
  caches_match k (enforce_then_put cacheName maxItems s (k, r)) = None.
Proof.
  intros S Miss. unfold enforce_then_put, put_lands. cbn [fst snd].
  rewrite S. apply limitCacheSize_keeps_miss.
  rewrite caches_match_open. exact Miss.
Qed.

(** An answer the Cache accepts, for an identity no partition held, is
    what a lookup finds once the put has landed. *)
Lemma enforce_then_put_caches_match cacheName maxItems s k r :
  storable r = true ->
  caches_match k s = None ->
  caches_match k (enforce_then_put cacheName maxItems s (k, r)) = Some r.
Proof.
  intros S Miss. unfold enforce_then_put, put_lands. cbn [fst snd].
  rewrite S. apply caches_match_in_cache_put.
  - apply caches_has_limitCacheSize.
  - apply limitCacheSize_keeps_miss. rewrite caches_match_open. exact Miss.
Qed.

(** What each strategy does, by what the storage holds and what the network
    does. *)
Lemma handlePageRequest_pending env request w :
  network env (url request) = Pending ->
  handlePageRequest env request w = (Hangs, log_fetch (url request) w).
Proof.
  intros N. unfold handlePageRequest, try_catch, bind, fetch. rewrite N.
  reflexivity.
Qed.

Lemma handleImageRequest_miss_pending env request w :
  caches_match (url request) (caches w) = None ->
  network env (url request) = Pending ->
  handleImageRequest env request w = (Hangs, log_fetch (url request) w).
Proof.
  intros H N. unfold handleImageRequest, bind, caches_matchM. rewrite H.
  unfold try_catch, bind, fetch. rewrite N. reflexivity.
Qed.

Lemma handleCDNRequest_hit env request w r :
  caches_match (url request) (caches w) = Some r ->
  handleCDNRequest env request w = (Returned r, w).
Proof.
  intros H. unfold handleCDNRequest, try_catch, bind, caches_matchM.
  rewrite H. reflexivity.
Qed.

Lemma handleCDNRequest_miss_200 env request w t r :
  caches_match (url request) (caches w) = None ->
  network env (url request) = Resolves t r ->
  status r = 200%N ->
  handleCDNRequest env request w =
  (Returned r,
   with_caches
     (put_lands CDN_CACHE (url request) r (caches_open CDN_CACHE (caches w)))
     (log_fetch (url request) w)).
Proof.
  intros Miss N S. unfold handleCDNRequest, try_catch, bind, caches_matchM.
  rewrite Miss. unfold fetch. rewrite N, S. reflexivity.
Qed.

Lemma handleCDNRequest_miss_pending env request w :
  caches_match (url request) (caches w) = None ->
  network env (url request) = Pending ->
  handleCDNRequest env request w = (Hangs, log_fetch (url request) w).
Proof.
  intros Miss N. unfold handleCDNRequest, try_catch, bind, caches_matchM.
  rewrite Miss. unfold fetch. rewrite N. reflexivity.
Qed.

Lemma handleCDNRequest_miss_rejected env request w t :
  caches_match (url request) (caches w) = None ->
  network env (url request) = Rejects t ->
  handleCDNRequest env request w =
  (if includes (url request) ".css" || includes (url request) "tailwind"
   then Returned css_fallback else Thrown NetworkError,
   log_fetch (url request) w).
Proof.
  intros Miss N. unfold handleCDNRequest, try_catch, bind, caches_matchM.
  rewrite Miss. unfold fetch. rewrite N. cbn [caches log_fetch].
  rewrite Miss.
  destruct (includes (url request) ".css" || includes (url request) "tailwind");
    reflexivity.
Qed.

Lemma lift_response_world (m : M Response) w :
  snd (lift_response m w) = snd (m w).
Proof.
  unfold lift_response, bind. destruct (m w) as [[r|e|] w']; reflexivity.
Qed.

Lemma fetch_world env u w : snd (fetch env u w) = log_fetch u w.
Proof. unfold fetch. destruct (network env u); reflexivity. Qed.

Lemma handleApiRequest_world env request w :
  snd (handleApiRequest env request w) = log_fetch (url request) w.
Proof.
  destruct (handleApiRequest_returns env request w) as [r E]. rewrite E.
  reflexivity.
Qed.

Lemma footprint_same own u w : footprint own u w w.
Proof. split; [reflexivity|left; reflexivity]. Qed.

Lemma footprint_log own u w : footprint own u w (log_fetch u w).
Proof. split; [reflexivity|right; reflexivity]. Qed.

Lemma footprint_write own maxItems u r w :
  footprint own u w
    (with_caches (enforce_then_put own maxItems (caches w) (u, r))
                 (log_fetch u w)).
Proof.
  split; [|right; reflexivity]. intros n D. cbn [caches with_caches].
  apply enforce_then_put_other, D.
Qed.

Lemma handlePageRequest_footprint env request w :
  footprint DYNAMIC_CACHE (url request) w (snd (handlePageRequest env request w)).
Proof.
  destruct (network env (url request)) as [t r|t|] eqn:N.
  - rewrite (handlePageRequest_online env request w t r N).
    apply footprint_write.
  - rewrite (handlePageRequest_offline env request w t N). apply footprint_log.
  - rewrite (handlePageRequest_pending env request w N). apply footprint_log.
Qed.

Lemma handleImageRequest_footprint env request w :
  footprint IMAGE_CACHE (url request) w (snd (handleImageRequest env request w)).
Proof.
  destruct (caches_match (url request) (caches w)) as [c|] eqn:Hit.
  - rewrite (handleImageRequest_hit env request w c Hit). apply footprint_same.
  - destruct (network env (url request)) as [t r|t|] eqn:N.
    + rewrite (handleImageRequest_miss_online env request w t r Hit N).
      apply footprint_write.
    + rewrite (handleImageRequest_miss_offline env request w t Hit N).
      apply footprint_log.
    + rewrite (handleImageRequest_miss_pending env request w Hit N).
      apply footprint_log.
Qed.

Lemma handleCDNRequest_footprint env request w :
  footprint CDN_CACHE (url request) w (snd (handleCDNRequest env request w)).
Proof.
  destruct (caches_match (url request) (caches w)) as [c|] eqn:Hit.
  - rewrite (handleCDNRequest_hit env request w c Hit). apply footprint_same.
  - destruct (network env (url request)) as [t r|t|] eqn:N.
    + destruct (N.eq_dec (status r) 200) as [S|S].
      * rewrite (handleCDNRequest_miss_200 env request w t r Hit N S).
        split; [|right; reflexivity]. intros n D. cbn [snd caches with_caches].
        unfold put_lands. destruct (storable r).
        -- rewrite cache_of_in_cache_other by exact D.
           apply cache_of_open_other, D.
        -- apply cache_of_open_other, D.
      * rewrite (handleCDNRequest_skips_non_200 env request w t r Hit N S).
        apply footprint_log.
    + rewrite (handleCDNRequest_miss_rejected env request w t Hit N).
      apply footprint_log.
    + rewrite (handleCDNRequest_miss_pending env request w Hit N).
      apply footprint_log.
Qed.

(** X4. Answering a request changes at most the partition of the
    strategy that answers it: dynamic-pages for a page, images for an
    image, third-party for a third-party resource, none for an API call or
    a passed-through request.  In particular static-shell is never
    modified by request handling. *)
Theorem strategies_write_own_partition_only :
  forall (env : Env) (request : Request) (w : World) (r : Route)
         (answer : M (option Response)) (n : string),
    route env request = Some r ->
    onFetch env request = Some answer ->
    own_partition r <> Some n ->
    cache_of n (caches (snd (answer w))) = cache_of n (caches w).
Proof.
  intros env request w r answer n R F O.
  rewrite onFetch_dispatch, R in F.
  destruct r; injection F as <-; try rewrite lift_response_world.
  - apply (proj1 (handleCDNRequest_footprint env request w)).
    intros ->. apply O. reflexivity.
  - rewrite fetch_world. reflexivity.
  - apply (proj1 (handleImageRequest_footprint env request w)).
    intros ->. apply O. reflexivity.
  - rewrite handleApiRequest_world. reflexivity.
  - apply (proj1 (handlePageRequest_footprint env request w)).
    intros ->. apply O. reflexivity.
Qed.

Lemma strategies_write_own_partition_only_witness :
  (route Scenario.online Scenario.page = Some Page /\
   onFetch Scenario.online Scenario.page
   = Some (handlePageRequest Scenario.online Scenario.page) /\
   own_partition Page <> Some CACHE_NAME) /\
  cache_of CACHE_NAME
    (caches (snd (handlePageRequest Scenario.online Scenario.page
                    Scenario.installed)))
  = cache_of CACHE_NAME (caches Scenario.installed).
Proof.
  assert (O : own_partition Page <> Some CACHE_NAME) by discriminate.
  split; [split; [reflexivity|split; [reflexivity|exact O]]|].
  exact (strategies_write_own_partition_only Scenario.online Scenario.page
           Scenario.installed Page
           (handlePageRequest Scenario.online Scenario.page) CACHE_NAME
           eq_refl eq_refl O).
Defined.

(** X5. Answering a request fetches at most once, and only the URL of
    the request: the log of fetches is as it was or longer by that URL.
    (The placeholder, in particular, is never fetched while answering.) *)
Theorem strategies_fetch_at_most_once :
  forall (env : Env) (request : Request) (w : World)
         (answer : M (option Response)),
    onFetch env request = Some answer ->
    fetch_log (snd (answer w)) = fetch_log w \/
    fetch_log (snd (answer w)) = fetch_log w ++ [url request].
Proof.
  intros env request w answer F. rewrite onFetch_dispatch in F.
  destruct (route env request) as [[]|]; [| | | | |discriminate];
    injection F as <-; try rewrite lift_response_world.
  - apply (proj2 (handleCDNRequest_footprint env request w)).
  - rewrite fetch_world. right. reflexivity.
  - apply (proj2 (handleImageRequest_footprint env request w)).
  - rewrite handleApiRequest_world. right. reflexivity.
  - apply (proj2 (handlePageRequest_footprint env request w)).
Qed.

Lemma strategies_fetch_at_most_once_witness :
  onFetch Scenario.offline Scenario.page
  = Some (handlePageRequest Scenario.offline Scenario.page) /\
  (fetch_log (snd (handlePageRequest Scenario.offline Scenario.page
                     Scenario.installed))
   = fetch_log Scenario.installed \/
   fetch_log (snd (handlePageRequest Scenario.offline Scenario.page
                     Scenario.installed))
   = fetch_log Scenario.installed ++ [url Scenario.page]).
Proof.
  split; [reflexivity|].
  exact (strategies_fetch_at_most_once Scenario.offline Scenario.page
           Scenario.installed
           (handlePageRequest Scenario.offline Scenario.page) eq_refl).
Defined.

(** ** The third-party strategy *)

(** X6. A third-party request whose identity has a cached entry is
    answered with it; nothing is fetched and the world is as it was. *)
Theorem third_party_cache_hit_skips_network :
  forall (env : Env) (request : Request) (w : World) (cached : Response),
    caches_match (url request) (caches w) = Some cached ->
    handleCDNRequest env request w = (Returned cached, w).
Proof.
  intros env request w cached Hit.
  apply handleCDNRequest_hit, Hit.
Qed.

Lemma third_party_cache_hit_skips_network_witness :
  caches_match (url CdnScenario.font) (caches CdnScenario.font_cached)
  = Some (Scenario.ok_response (url CdnScenario.font)) /\
  handleCDNRequest Scenario.stalled CdnScenario.font CdnScenario.font_cached
  = (Returned (Scenario.ok_response (url CdnScenario.font)),
     CdnScenario.font_cached).
Proof.
  assert (H : caches_match (url CdnScenario.font)
                (caches CdnScenario.font_cached)
              = Some (Scenario.ok_response (url CdnScenario.font)))
    by reflexivity.
  split; [exact H|].
  exact (third_party_cache_hit_skips_network Scenario.stalled CdnScenario.font
           CdnScenario.font_cached _ H).
Defined.

(** X7. On a miss answered by the network with status 200, the answer is
    returned.  When the Cache accepts it (no [Vary: *]) it is added to
    the third-party partition, which keeps all its other entries (this
    partition is never trimmed), and from then on the request is answered
    from the storage whatever the network does.  When the Cache refuses
    it, no partition has an entry for the request afterwards. *)
Theorem third_party_miss_is_stored :
  forall (env env' : Env) (request : Request) (w : World) (t : N) (r : Response),
    caches_match (url request) (caches w) = None ->
    network env (url request) = Resolves t r ->
    status r = 200%N ->
    let w' := snd (handleCDNRequest env request w) in
    fst (handleCDNRequest env request w) = Returned r /\
    (storable r = true ->
     cache_of CDN_CACHE (caches w') =
       cache_put (url request) r (cache_of CDN_CACHE (caches w)) /\
     handleCDNRequest env' request w' = (Returned r, w')) /\
    (storable r = false ->
     caches_match (url request) (caches w') = None).
Proof.
  intros env env' request w t r Miss N S w'. unfold w'.
  rewrite (handleCDNRequest_miss_200 env request w t r Miss N S).
  cbn [fst snd caches with_caches]. unfold put_lands.
  split; [reflexivity|]. split; intros St; rewrite St.
  - split.
    + rewrite cache_of_in_cache, cache_of_open by apply caches_has_open.
      reflexivity.
    + apply handleCDNRequest_hit. cbn [caches].
      apply caches_match_in_cache_put; [apply caches_has_open|].
      rewrite caches_match_open. exact Miss.
  - rewrite caches_match_open. exact Miss.
Qed.

Lemma third_party_miss_is_stored_witness :
  (caches_match (url CdnScenario.font) (caches Scenario.installed) = None /\
   network Scenario.online (url CdnScenario.font)
   = Resolves 20 (Scenario.ok_response (url CdnScenario.font)) /\
   status (Scenario.ok_response (url CdnScenario.font)) = 200%N /\
   storable (Scenario.ok_response (url CdnScenario.font)) = true) /\
  handleCDNRequest Scenario.offline CdnScenario.font CdnScenario.font_cached
  = (Returned (Scenario.ok_response (url CdnScenario.font)),
     CdnScenario.font_cached) /\
  (storable RefusalScenario.varying = false /\
   caches_match (url CdnScenario.font)
     (caches (snd (handleCDNRequest RefusalScenario.vary_all CdnScenario.font
                     Scenario.installed)))
   = None).
Proof.
  split; [repeat split|]. split.
  - exact (proj2 (proj1 (proj2 (third_party_miss_is_stored Scenario.online
                                  Scenario.offline CdnScenario.font
                                  Scenario.installed 20%N
                                  (Scenario.ok_response (url CdnScenario.font))
                                  eq_refl eq_refl eq_refl)) eq_refl)).
  - split; [reflexivity|].
    exact (proj2 (proj2 (third_party_miss_is_stored RefusalScenario.vary_all
                           Scenario.offline CdnScenario.font
                           Scenario.installed 20%N RefusalScenario.varying
                           eq_refl eq_refl eq_refl)) eq_refl).
Defined.

(** X8. On a miss answered by the network with another status, the answer
    is returned and nothing is stored. *)
Theorem third_party_other_status_not_stored :
  forall (env : Env) (request : Request) (w : World) (t : N) (r : Response),
    caches_match (url request) (caches w) = None ->
    network env (url request) = Resolves t r ->
    status r <> 200%N ->
    fst (handleCDNRequest env request w) = Returned r /\
    caches (snd (handleCDNRequest env request w)) = caches w.
Proof.
  intros env request w t r Miss N S.
  rewrite (handleCDNRequest_skips_non_200 env request w t r Miss N S).
  split; reflexivity.
Qed.

Lemma third_party_other_status_not_stored_witness :
  (caches_match (url CdnScenario.font) (caches Scenario.installed) = None /\
   status Scenario.not_found <> 200%N) /\
  caches (snd (handleCDNRequest Scenario.missing CdnScenario.font
                 Scenario.installed))
  = caches Scenario.installed.
Proof.
  assert (S : status Scenario.not_found <> 200%N) by discriminate.
  split; [split; [reflexivity|exact S]|].
  exact (proj2 (third_party_other_status_not_stored Scenario.missing
                  CdnScenario.font Scenario.installed 20%N Scenario.not_found
                  eq_refl eq_refl S)).
Defined.

(** X9. When the fetch is rejected and nothing is cached for the request,
    a URL containing [.css] or [tailwind] is answered with an empty
    stylesheet (status 200, content type text/css); for any other URL the
    rejection is passed on to the caller.  Nothing is stored either way. *)
Theorem third_party_offline_fallback :
  forall (env : Env) (request : Request) (w : World) (t : N),
    caches_match (url request) (caches w) = None ->
    network env (url request) = Rejects t ->
    ((exists pre post,
        url request = String.append pre (String.append ".css" post) \/
        url request = String.append pre (String.append "tailwind" post)) ->
     fst (handleCDNRequest env request w) = Returned css_fallback) /\
    ((forall pre post,
        url request <> String.append pre (String.append ".css" post) /\
        url request <> String.append pre (String.append "tailwind" post)) ->
     fst (handleCDNRequest env request w) = Thrown NetworkError) /\
    caches (snd (handleCDNRequest env request w)) = caches w /\
    status css_fallback = 200%N /\
    headers css_fallback = [("Content-Type", "text/css")] /\
    body css_fallback = "/* Offline - CSS unavailable */".
Proof.
  intros env request w t Miss N.
  rewrite (handleCDNRequest_miss_rejected env request w t Miss N).
  cbn [fst snd]. split; [|split; [|repeat split]].
  - intros [pre [post [E|E]]].
    + assert (I : includes (url request) ".css" = true)
        by (apply includes_substring; exists pre, post; exact E).
      rewrite I. reflexivity.
    + assert (I : includes (url request) "tailwind" = true)
        by (apply includes_substring; exists pre, post; exact E).
      rewrite I, orb_true_r. reflexivity.
  - intros No.
    destruct (includes (url request) ".css") eqn:A.
    + apply includes_substring in A. destruct A as [pre [post E]].
      destruct (No pre post) as [X _]. contradiction.
    + destruct (includes (url request) "tailwind") eqn:B; [|reflexivity].
      apply includes_substring in B. destruct B as [pre [post E]].
      destruct (No pre post) as [_ X]. contradiction.
Qed.

Lemma third_party_offline_fallback_witness :
  (caches_match (url CdnScenario.stylesheet) (caches Scenario.installed) = None /\
   network Scenario.offline (url CdnScenario.stylesheet) = Rejects 20) /\
  fst (handleCDNRequest Scenario.offline CdnScenario.stylesheet
         Scenario.installed)
  = Returned css_fallback.
Proof.
  split; [split; reflexivity|].
  apply (proj1 (third_party_offline_fallback Scenario.offline
                  CdnScenario.stylesheet Scenario.installed 20%N
                  eq_refl eq_refl)).
  exists "https://cdnjs.cloudflare.com/ajax/libs/x/1.0/x.min", "".
  left. reflexivity.
Defined.

(** Of the pre-cached third-party URLs only the Tailwind one has the
    stylesheet fallback: the font stylesheets are served under [/css2],
    which contains neither marker. *)
Example fallback_markers_in_manifest :
  map (fun u => includes u ".css" || includes u "tailwind") cdnUrlsToCache
  = [true; false; false; false].
Proof. reflexivity. Qed.

(** ** The image and page strategies, continued *)

(** X10. The image strategy never rejects: it returns, or waits for a
    fetch that does not settle.  On a miss with a rejected fetch it
    returns the synthetic answer with status 404 and body
    [Image not available], and stores nothing. *)
Theorem image_strategy_never_rejects :
  forall (env : Env) (request : Request) (w : World),
    hangs_or_returns (fst (handleImageRequest env request w)) /\
    (forall t,
        caches_match (url request) (caches w) = None ->
        network env (url request) = Rejects t ->
        fst (handleImageRequest env request w) = Returned image_unavailable /\
        caches (snd (handleImageRequest env request w)) = caches w) /\
    status image_unavailable = 404%N /\
    body image_unavailable = "Image not available".
Proof.
  intros env request w. split; [|split; [|split; reflexivity]].
  - destruct (caches_match (url request) (caches w)) as [c|] eqn:Hit.
    + rewrite (handleImageRequest_hit env request w c Hit).
      right. eexists. reflexivity.
    + destruct (network env (url request)) as [t r|t|] eqn:N.
      * rewrite (handleImageRequest_miss_online env request w t r Hit N).
        right. eexists. reflexivity.
      * rewrite (handleImageRequest_miss_offline env request w t Hit N).
        right. eexists. reflexivity.
      * rewrite (handleImageRequest_miss_pending env request w Hit N).
        left. reflexivity.
  - intros t Miss N.
    rewrite (handleImageRequest_miss_offline env request w t Miss N).
    split; reflexivity.
Qed.

Lemma image_strategy_never_rejects_witness :
  (caches_match (url Scenario.picture) (caches Scenario.installed) = None /\
   network Scenario.offline (url Scenario.picture) = Rejects 20) /\
  fst (handleImageRequest Scenario.offline Scenario.picture Scenario.installed)
  = Returned image_unavailable.
Proof.
  split; [split; reflexivity|].
  exact (proj1 (proj1 (proj2 (image_strategy_never_rejects Scenario.offline
                                Scenario.picture Scenario.installed))
                  20%N eq_refl eq_refl)).
Defined.



(** X12. The page strategy never rejects either.  When the fetch is
    rejected and neither the request nor '/offline.html' is in any
    partition, it returns [undefined]. *)
Theorem page_strategy_never_rejects :
  forall (env : Env) (request : Request) (w : World),
    hangs_or_returns (fst (handlePageRequest env request w)) /\
    (forall t,
        network env (url request) = Rejects t ->
        caches_match (url request) (caches w) = None ->
        caches_match "/offline.html" (caches w) = None ->
        handlePageRequest env request w
        = (Returned None, log_fetch (url request) w)).
Proof.
  intros env request w. split.
  - destruct (network env (url request)) as [t r|t|] eqn:N.
    + rewrite (handlePageRequest_online env request w t r N).
      right. eexists. reflexivity.
    + rewrite (handlePageRequest_offline env request w t N).
      right. eexists. reflexivity.
    + rewrite (handlePageRequest_pending env request w N). left. reflexivity.
  - intros t N Miss Off.
    rewrite (handlePageRequest_offline env request w t N), Miss, Off.
    reflexivity.
Qed.

Lemma page_strategy_never_rejects_witness :
  (network Scenario.offline (url Scenario.page) = Rejects 20 /\
   caches_match (url Scenario.page) (caches Scenario.fresh) = None /\
   caches_match "/offline.html" (caches Scenario.fresh) = None) /\
  handlePageRequest Scenario.offline Scenario.page Scenario.fresh
  = (Returned None, log_fetch (url Scenario.page) Scenario.fresh).
Proof.
  split; [repeat split|].
  exact (proj2 (page_strategy_never_rejects Scenario.offline Scenario.page
                  Scenario.fresh) 20%N eq_refl eq_refl eq_refl).
Defined.

(** X13. A page that no partition held, once fetched with a response
    the Cache accepts (status other than 206, no [Vary: *]), is what a
    later request for it gets when the network fails.  After a response
    the Cache refuses, the later request gets what the lookup of
    '/offline.html' finds. *)
Theorem page_visit_available_offline :
  forall (env env' : Env) (request : Request) (w : World)
         (t t' : N) (r : Response),
    caches_match (url request) (caches w) = None ->
    network env (url request) = Resolves t r ->
    network env' (url request) = Rejects t' ->
    let w' := snd (handlePageRequest env request w) in
    (storable r = true ->
     fst (handlePageRequest env' request w') = Returned (Some r)) /\
    (storable r = false ->
     fst (handlePageRequest env' request w')
     = Returned (caches_match "/offline.html" (caches w'))).
Proof.
  intros env env' request w t t' r Miss N N' w'. unfold w'.
  rewrite (handlePageRequest_offline env' request _ t' N').
  rewrite (handlePageRequest_online env request w t r N).
  cbn [fst snd caches with_caches]. split; intros S.
  - rewrite enforce_then_put_caches_match by assumption. reflexivity.
  - rewrite enforce_then_put_refused by assumption. reflexivity.
Qed.

Lemma page_visit_available_offline_witness :
  (caches_match (url Scenario.page) (caches Scenario.installed) = None /\
   network Scenario.online (url Scenario.page)
   = Resolves 20 (Scenario.ok_response (url Scenario.page)) /\
   network Scenario.offline (url Scenario.page) = Rejects 20 /\
   storable (Scenario.ok_response (url Scenario.page)) = true) /\
  fst (handlePageRequest Scenario.offline Scenario.page Scenario.visited)
  = Returned (Some (Scenario.ok_response (url Scenario.page))) /\
  (storable RefusalScenario.partial = false /\
   fst (handlePageRequest Scenario.offline Scenario.page
          (snd (handlePageRequest RefusalScenario.ranged Scenario.page
                  Scenario.installed)))
   = Returned (Some (Scenario.ok_response "/offline.html"))).
Proof.
  split; [repeat split|]. split.
  - exact (proj1 (page_visit_available_offline Scenario.online Scenario.offline
                    Scenario.page Scenario.installed 20%N 20%N
                    (Scenario.ok_response (url Scenario.page))
                    eq_refl eq_refl eq_refl) eq_refl).
  - split; [reflexivity|].
    exact (proj2 (page_visit_available_offline RefusalScenario.ranged
                    Scenario.offline Scenario.page Scenario.installed
                    20%N 20%N RefusalScenario.partial
                    eq_refl eq_refl eq_refl) eq_refl).
Defined.

Lemma caches_open_cons_other n a c s :
  a <> n -> caches_open n ((a, c) :: s) = (a, c) :: caches_open n s.
Proof.
  intros D. unfold caches_open, caches_has. simpl. rewrite name_is_pair.
  apply String.eqb_neq in D. rewrite D. simpl.
  destruct (existsb (name_is n) s); reflexivity.
Qed.

Lemma enforce_then_put_cons_other n maxItems a c s w :
  a <> n ->
  exists s', enforce_then_put n maxItems ((a, c) :: s) w = (a, c) :: s'.
Proof.
  intros D. unfold enforce_then_put, put_lands.
  destruct (limitCacheSize_shape n maxItems (caches_open n ((a, c) :: s)))
    as [g G].
  rewrite G. rewrite caches_open_present by apply caches_has_open.
  rewrite caches_open_cons_other by exact D.
  rewrite in_cache_cons. apply String.eqb_neq in D. rewrite D.
  destruct (storable (snd w)).
  - rewrite in_cache_cons, D. eexists. reflexivity.
  - eexists. reflexivity.
Qed.

(** X14. The fallback looks partitions up in creation order, so a copy in
    a partition created before dynamic-pages wins over the page just
    fetched: when the first partition (static-shell after installation)
    holds a response for the URL, a request for it with the network down
    gets that response even after a fresher one was fetched and stored. *)
Theorem page_fallback_prefers_older_partition :
  forall (env env' : Env) (request : Request) (w : World) (n0 : string)
         (c0 : Cache) (rest : CacheStorage) (t t' : N) (r r0 : Response),
    caches w = (n0, c0) :: rest ->
    n0 <> DYNAMIC_CACHE ->
    cache_match (url request) c0 = Some r0 ->
    network env (url request) = Resolves t r ->
    network env' (url request) = Rejects t' ->
    fst (handlePageRequest env request w) = Returned (Some r) /\
    fst (handlePageRequest env' request (snd (handlePageRequest env request w)))
    = Returned (Some r0).
Proof.
  intros env env' request w n0 c0 rest t t' r r0 S D C N N'.
  rewrite (handlePageRequest_offline env' request _ t' N').
  rewrite (handlePageRequest_online env request w t r N).
  cbn [fst snd caches with_caches]. split; [reflexivity|].
  rewrite S.
  destruct (enforce_then_put_cons_other DYNAMIC_CACHE MAX_DYNAMIC_ITEMS n0 c0
              rest (url request, r) D) as [s' E].
  rewrite E. simpl. rewrite C. reflexivity.
Qed.

Lemma page_fallback_prefers_older_partition_witness :
  (caches Scenario.installed
   = (CACHE_NAME, cache_of CACHE_NAME (caches Scenario.installed))
     :: tl (caches Scenario.installed) /\
   CACHE_NAME <> DYNAMIC_CACHE /\
   cache_match (url ShellScenario.home)
     (cache_of CACHE_NAME (caches Scenario.installed))
   = Some (Scenario.ok_response "/index.html")) /\
  fst (handlePageRequest Scenario.offline ShellScenario.home
         (snd (handlePageRequest ShellScenario.updated ShellScenario.home
                 Scenario.installed)))
  = Returned (Some (Scenario.ok_response "/index.html")).
Proof.
  assert (D : CACHE_NAME <> DYNAMIC_CACHE) by discriminate.
  split; [split; [reflexivity|split; [exact D|reflexivity]]|].
  exact (proj2 (page_fallback_prefers_older_partition ShellScenario.updated
                  Scenario.offline ShellScenario.home Scenario.installed
                  CACHE_NAME (cache_of CACHE_NAME (caches Scenario.installed))
                  (tl (caches Scenario.installed)) 20%N 20%N
                  (mkResponse 200 [] "updated")
                  (Scenario.ok_response "/index.html")
                  eq_refl D eq_refl eq_refl eq_refl)).
Defined.

(** ** The classifier, continued *)

(** X15. The API test is a substring test on the whole URL: a same-origin
    GET request to a host that is not third-party, whose URL contains
    [/api/] anywhere, goes to the image strategy when its destination is
    image and to the API strategy otherwise; answered by the API strategy
    it leaves every partition as it was. *)
Theorem api_marker_anywhere_in_url :
  forall (env : Env) (request : Request) (w : World) (pre post : string),
    method request = "GET" ->
    isCDNResource request = false ->
    origin request = location_origin env ->
    url request = String.append pre (String.append "/api/" post) ->
    route env request =
      Some (if String.eqb (destination request) "image" then Image else ApiCall) /\
    (destination request <> "image" ->
     onFetch env request = Some (lift_response (handleApiRequest env request)) /\
     caches (snd (lift_response (handleApiRequest env request) w)) = caches w).
Proof.
  intros env request w pre post G C O U.
  assert (I : includes (url request) "/api/" = true)
    by (apply includes_substring; exists pre, post; exact U).
  assert (R : route env request =
              Some (if String.eqb (destination request) "image"
                    then Image else ApiCall)).
  { unfold route. rewrite G, C, O, !String.eqb_refl, I. cbn [negb].
    destruct (String.eqb (destination request) "image"); reflexivity. }
  split; [exact R|]. intros D. apply String.eqb_neq in D. rewrite D in R.
  split.
  - rewrite onFetch_dispatch, R. reflexivity.
  - rewrite lift_response_world, handleApiRequest_world. reflexivity.
Qed.

Lemma api_marker_anywhere_in_url_witness :
  (method ShellScenario.api_docs = "GET" /\
   isCDNResource ShellScenario.api_docs = false /\
   origin ShellScenario.api_docs = location_origin Scenario.online /\
   destination ShellScenario.api_docs <> "image") /\
  route Scenario.online ShellScenario.api_docs = Some ApiCall /\
  caches (snd (lift_response
                 (handleApiRequest Scenario.online ShellScenario.api_docs)
                 Scenario.installed))
  = caches Scenario.installed.
Proof.
  assert (D : destination ShellScenario.api_docs <> "image") by discriminate.
  split; [split; [reflexivity|split; [reflexivity|split; [reflexivity|exact D]]]|].
  pose proof (api_marker_anywhere_in_url Scenario.online ShellScenario.api_docs
                Scenario.installed "https://edupath.example/docs" "index.html"
                eq_refl eq_refl eq_refl eq_refl) as T.
  split; [exact (proj1 T)|exact (proj2 (proj2 T D))].
Defined.

(** X16. A GET request to another origin whose host is not third-party is
    answered by the bare network: a response is handed on as it is, a
    rejection reaches the caller, and no partition is read or written. *)
Theorem cross_origin_is_bare_network :
  forall (env : Env) (request : Request) (w : World),
    method request = "GET" ->
    isCDNResource request = false ->
    origin request <> location_origin env ->
    exists answer,
      onFetch env request = Some answer /\
      caches (snd (answer w)) = caches w /\
      (forall t r, network env (url request) = Resolves t r ->
                   fst (answer w) = Returned (Some r)) /\
      (forall t, network env (url request) = Rejects t ->
                 fst (answer w) = Thrown NetworkError).
Proof.
  intros env request w G C O.
  exists (lift_response (fetch env (url request))). split; [|split; [|split]].
  - rewrite onFetch_dispatch, (cross_origin_pass_through env request G O), C.
    reflexivity.
  - rewrite lift_response_world, fetch_world. reflexivity.
  - intros t r N. unfold lift_response, bind, fetch. rewrite N. reflexivity.
  - intros t N. unfold lift_response, bind, fetch. rewrite N. reflexivity.
Qed.

Lemma cross_origin_is_bare_network_witness :
  (method ShellScenario.foreign = "GET" /\
   isCDNResource ShellScenario.foreign = false /\
   origin ShellScenario.foreign <> location_origin Scenario.offline) /\
  exists answer,
    onFetch Scenario.offline ShellScenario.foreign = Some answer /\
    fst (answer Scenario.installed) = Thrown NetworkError.
Proof.
  assert (O : origin ShellScenario.foreign <> location_origin Scenario.offline)
    by discriminate.
  split; [split; [reflexivity|split; [reflexivity|exact O]]|].
  destruct (cross_origin_is_bare_network Scenario.offline ShellScenario.foreign
              Scenario.installed eq_refl eq_refl O) as [answer [F [_ [_ R]]]].
  exists answer. split; [exact F|]. exact (R 20%N eq_refl).
Defined.

(** ** Installation, continued *)

Lemma cache_match_put_fetched env urls c u t r :
  In u urls ->
  network env u = Resolves t r ->
  cache_match u (fold_left (put_fetched env) urls c) = Some r.
Proof.
  intros I N. induction urls as [|x urls IH] using rev_ind; [destruct I|].
  rewrite fold_left_app. cbn [fold_left]. unfold put_fetched at 1.
  destruct (String.eqb x u) eqn:E.
  - apply String.eqb_eq in E. subst x. rewrite N. apply cache_match_put_same.
  - apply String.eqb_neq in E. apply in_app_or in I.
    destruct I as [I|[I|[]]]; [|contradiction].
    destruct (network env x); try exact (IH I).
    rewrite cache_match_put_other by exact E. exact (IH I).
Qed.

Lemma addAll_world env n urls w :
  snd (addAll env n urls w) =
  mkWorld
    (if existsb (fun u => fetch_failed (network env u)) urls
        || existsb (fun u => fetch_pending (network env u)) urls
     then caches w
     else in_cache n (fun c => fold_left (put_fetched env) urls c) (caches w))
    (fetch_log w ++ urls) (skipped_waiting w) (clients_claimed w).
Proof.
  unfold addAll.
  destruct (existsb (fun u => fetch_failed (network env u)) urls);
    [reflexivity|].
  destruct (existsb (fun u => fetch_pending (network env u)) urls);
    reflexivity.
Qed.

Lemma after_on_caches_world {B} f (k : M B) w :
  snd ((on_caches f ;;; k) w) = snd (k (snd (on_caches f w))).
Proof. reflexivity. Qed.

Lemma try_catch_swallow_world (m : M unit) w :
  snd (try_catch m (fun _ => ret tt) w) = snd (m w).
Proof. unfold try_catch. destruct (m w) as [[[]|e|] w']; reflexivity. Qed.

Lemma cache_static_assets_world env w :
  snd (cache_static_assets env w) =
  snd (addAll env CACHE_NAME urlsToCache
         (with_caches (caches_open CACHE_NAME (caches w)) w)).
Proof. reflexivity. Qed.

Lemma cache_cdn_resources_world env w :
  snd (cache_cdn_resources env w) =
  snd (addAll env CDN_CACHE cdnUrlsToCache
         (with_caches (caches_open CDN_CACHE (caches w)) w)).
Proof.
  unfold cache_cdn_resources.
  rewrite after_on_caches_world, try_catch_swallow_world. reflexivity.
Qed.

(** The third-party step of installation leaves the other partitions as
    they are. *)
Lemma cache_cdn_resources_other env w n :
  n <> CDN_CACHE ->
  cache_of n (caches (snd (cache_cdn_resources env w))) = cache_of n (caches w).
Proof.
  intros D. rewrite cache_cdn_resources_world, addAll_world.
  cbn [caches with_caches].
  destruct (existsb (fun u => fetch_failed (network env u)) cdnUrlsToCache
            || existsb (fun u => fetch_pending (network env u)) cdnUrlsToCache).
  - apply cache_of_open_other, D.
  - rewrite cache_of_in_cache_other by exact D. apply cache_of_open_other, D.
Qed.

Lemma cache_cdn_resources_skipped env w :
  skipped_waiting (snd (cache_cdn_resources env w)) = skipped_waiting w.
Proof. rewrite cache_cdn_resources_world, addAll_world. reflexivity. Qed.

Lemma cache_static_assets_skipped env w :
  skipped_waiting (snd (cache_static_assets env w)) = skipped_waiting w.
Proof. rewrite cache_static_assets_world, addAll_world. reflexivity. Qed.

Lemma onInstall_caches env w :
  caches (snd (onInstall env w)) =
  caches (snd (cache_cdn_resources env (snd (cache_static_assets env w)))).
Proof.
  unfold onInstall, bind, promise_all2.
  destruct (cache_static_assets env w) as [ra wa]. cbn [snd].
  destruct (cache_cdn_resources env wa) as [rb wb]. cbn [snd].
  destruct ra as [[]|e|], rb as [[]|e'|]; reflexivity.
Qed.

Lemma onInstall_skipped env w :
  skipped_waiting (snd (onInstall env w)) =
  match fst (onInstall env w) with
  | Returned _ => true
  | _ => skipped_waiting w
  end.
Proof.
  pose proof (cache_static_assets_skipped env w) as A.
  pose proof (cache_cdn_resources_skipped env (snd (cache_static_assets env w)))
    as B.
  unfold onInstall, bind, promise_all2 in *.
  destruct (cache_static_assets env w) as [ra wa]. cbn [snd] in *.
  destruct (cache_cdn_resources env wa) as [rb wb]. cbn [snd] in *.
  destruct ra as [[]|e|], rb as [[]|e'|]; cbn; congruence.
Qed.

(** X17. When every entry of the local manifest is fetched with an answer
    [addAll] accepts (a status in 200..299 other than 206, no [Vary: *]),
    then after installation, whatever the third-party
    fetches did, static-shell holds for every entry the response the
    network gave for it.  On a storage that was empty static-shell is the
    first partition, so a lookup of '/offline.html' finds the
    placeholder. *)
Theorem install_prewarms_static_shell :
  forall (env : Env) (w : World),
    (forall u, In u urlsToCache ->
               exists t r, network env u = Resolves t r /\ addAll_accepts r = true) ->
    (forall u t r,
        In u urlsToCache -> network env u = Resolves t r ->
        cache_match u (cache_of CACHE_NAME (caches (snd (onInstall env w))))
        = Some r) /\
    (caches w = [] ->
     forall t r, network env "/offline.html" = Resolves t r ->
                 caches_match "/offline.html" (caches (snd (onInstall env w)))
                 = Some r).
Proof.
  intros env w OK.
  assert (F : existsb (fun u => fetch_failed (network env u)) urlsToCache = false).
  { apply existsb_none. intros u I. destruct (OK u I) as [t [r [N R]]].
    rewrite N. cbn [fetch_failed]. rewrite R. reflexivity. }
  assert (P : existsb (fun u => fetch_pending (network env u)) urlsToCache = false).
  { apply existsb_none. intros u I. destruct (OK u I) as [t [r [N R]]].
    rewrite N. reflexivity. }
  assert (S : forall u t r,
             In u urlsToCache -> network env u = Resolves t r ->
             cache_match u (cache_of CACHE_NAME (caches (snd (onInstall env w))))
             = Some r).
  { intros u t r I N. rewrite onInstall_caches.
    rewrite cache_cdn_resources_other by discriminate.
    rewrite cache_static_assets_world, addAll_world, F, P.
    cbn [orb caches with_caches].
    rewrite cache_of_in_cache by apply caches_has_open.
    apply (cache_match_put_fetched env urlsToCache _ u t r I N). }
  split; [exact S|]. intros E t r N.
  assert (I : In "/offline.html" urlsToCache) by (cbv [urlsToCache In]; tauto).
  specialize (S "/offline.html" t r I N).
  rewrite onInstall_caches in *.
  rewrite cache_cdn_resources_world, addAll_world in *.
  rewrite cache_static_assets_world, addAll_world, F, P, E in *.
  cbn [orb caches with_caches] in *.
  destruct (existsb (fun u => fetch_failed (network env u)) cdnUrlsToCache
            || existsb (fun u => fetch_pending (network env u)) cdnUrlsToCache);
    cbn in S |- *; rewrite S; reflexivity.
Qed.

Lemma install_prewarms_static_shell_witness :
  caches Scenario.fresh = [] /\
  caches_match "/offline.html"
    (caches (snd (onInstall InstallScenario.cdn_down Scenario.fresh)))
  = Some (Scenario.ok_response "/offline.html").
Proof.
  split; [reflexivity|].
  assert (OK : forall u, In u urlsToCache ->
                 exists t r, network InstallScenario.cdn_down u = Resolves t r
                             /\ addAll_accepts r = true).
  { intros u I. exists 20%N, (Scenario.ok_response u).
    cbv [urlsToCache In] in I.
    repeat (destruct I as [<-|I]; [split; reflexivity|]). contradiction. }
  exact (proj2 (install_prewarms_static_shell InstallScenario.cdn_down
                  Scenario.fresh OK) eq_refl 20%N _ eq_refl).
Defined.

(** X18. When the fetch of some entry of the local manifest fails,
    installation rejects, static-shell holds what it held before (nothing
    of the manifest is stored, not even the entries that were fetched),
    and [skipWaiting] is not called. *)
Theorem install_failure_stores_nothing :
  forall (env : Env) (w : World) (u : string),
    In u urlsToCache ->
    fetch_failed (network env u) = true ->
    fst (onInstall env w) = Thrown TypeError /\
    cache_of CACHE_NAME (caches (snd (onInstall env w)))
    = cache_of CACHE_NAME (caches w) /\
    skipped_waiting (snd (onInstall env w)) = skipped_waiting w.
Proof.
  intros env w u I X.
  assert (F : existsb (fun u => fetch_failed (network env u)) urlsToCache = true)
    by (apply existsb_exists; exists u; split; assumption).
  assert (T : fst (onInstall env w) = Thrown TypeError).
  { rewrite onInstall_completion, cache_static_assets_completion, F.
    reflexivity. }
  split; [exact T|]. split.
  - rewrite onInstall_caches.
    rewrite cache_cdn_resources_other by discriminate.
    rewrite cache_static_assets_world, addAll_world, F.
    cbn [orb caches with_caches]. apply cache_of_open.
  - rewrite onInstall_skipped, T. reflexivity.
Qed.

Lemma install_failure_stores_nothing_witness :
  (In "/offline.html" urlsToCache /\
   fetch_failed (network InstallScenario.placeholder_missing "/offline.html")
   = true) /\
  cache_of CACHE_NAME
    (caches (snd (onInstall InstallScenario.placeholder_missing Scenario.fresh)))
  = [].
Proof.
  assert (I : In "/offline.html" urlsToCache) by (cbv [urlsToCache In]; tauto).
  split; [split; [exact I|reflexivity]|].
  exact (proj1 (proj2 (install_failure_stores_nothing
                         InstallScenario.placeholder_missing Scenario.fresh
                         "/offline.html" I eq_refl))).
Defined.

(** ** Control messages, continued *)

Lemma delete_all_partitions s :
  fold_left (fun s key => caches_delete key s) (caches_keys s) s = [].
Proof.
  change (prune [] (caches_keys s) s = []).
  rewrite prune_all_keys by auto.
  induction s as [|p s IH]; [reflexivity|exact IH].
Qed.

Lemma onMessage_clearCache env data w :
  get_prop data "action" = Some (JsString "clearCache") ->
  onMessage env data w = (Returned tt, with_caches [] w).
Proof.
  intros G. unfold onMessage, bind, read_action. rewrite G.
  unfold ret at 1. cbn [strict_eq_string String.eqb Ascii.eqb Bool.eqb andb].
  unfold on_caches, with_caches. rewrite delete_all_partitions. reflexivity.
Qed.



(** X20. After a [clearCache] message the placeholder is gone with the
    rest: a page request whose fetch is rejected is answered with
    [undefined]. *)
Theorem clear_cache_removes_placeholder :
  forall (env env' : Env) (data : JsValue) (request : Request) (w : World) (t : N),
    get_prop data "action" = Some (JsString "clearCache") ->
    network env' (url request) = Rejects t ->
    fst (handlePageRequest env' request (snd (onMessage env data w)))
    = Returned None.
Proof.
  intros env env' data request w t G N.
  rewrite (handlePageRequest_offline env' request _ t N).
  rewrite (onMessage_clearCache env data w G). reflexivity.
Qed.

Lemma clear_cache_removes_placeholder_witness :
  (get_prop (JsObject [("action", JsString "clearCache")]) "action"
   = Some (JsString "clearCache") /\
   network Scenario.offline (url Scenario.page) = Rejects 20) /\
  fst (handlePageRequest Scenario.offline Scenario.page
         (snd (onMessage Scenario.online
                 (JsObject [("action", JsString "clearCache")])
                 Scenario.installed)))
  = Returned None.
Proof.
  split; [split; reflexivity|].
  exact (clear_cache_removes_placeholder Scenario.online Scenario.offline
           (JsObject [("action", JsString "clearCache")]) Scenario.page
           Scenario.installed 20%N eq_refl eq_refl).
Defined.

(** X21. A [cacheCDN] message does not swallow failures as installation
    does: when the fetch of a third-party URL fails the listener's promise
    rejects, and no partition's contents change. *)
Theorem cache_cdn_message_rejects_on_failure :
  forall (env : Env) (data : JsValue) (w : World) (u : string),
    get_prop data "action" = Some (JsString "cacheCDN") ->
    In u cdnUrlsToCache ->
    fetch_failed (network env u) = true ->
    fst (onMessage env data w) = Thrown TypeError /\
    (forall n, cache_of n (caches (snd (onMessage env data w)))
               = cache_of n (caches w)) /\
    ~ thrown (fst (cache_cdn_resources env w)).
Proof.
  intros env data w u G I X.
  assert (F : existsb (fun u => fetch_failed (network env u)) cdnUrlsToCache
              = true)
    by (apply existsb_exists; exists u; split; assumption).
  unfold onMessage, bind, read_action. rewrite G.
  unfold ret at 1. cbn [strict_eq_string String.eqb Ascii.eqb Bool.eqb andb].
  split; [|split].
  - unfold on_caches, addAll. rewrite F. reflexivity.
  - intros n. unfold on_caches, addAll. rewrite F. cbn [snd caches].
    destruct (String.eqb n CDN_CACHE) eqn:E.
    + apply String.eqb_eq in E. subst n. apply cache_of_open.
    + apply String.eqb_neq in E. apply cache_of_open_other, E.
  - apply cache_cdn_resources_never_throws.
Qed.

Lemma cache_cdn_message_rejects_on_failure_witness :
  (get_prop (JsObject [("action", JsString "cacheCDN")]) "action"
   = Some (JsString "cacheCDN") /\
   In "https://cdn.jsdelivr.net/npm/@tailwindcss/browser@4" cdnUrlsToCache /\
   fetch_failed (network Scenario.offline
                   "https://cdn.jsdelivr.net/npm/@tailwindcss/browser@4")
   = true) /\
  fst (onMessage Scenario.offline (JsObject [("action", JsString "cacheCDN")])
         Scenario.installed)
  = Thrown TypeError.
Proof.
  assert (I : In "https://cdn.jsdelivr.net/npm/@tailwindcss/browser@4"
                 cdnUrlsToCache) by (left; reflexivity).
  split; [split; [reflexivity|split; [exact I|reflexivity]]|].
  exact (proj1 (cache_cdn_message_rejects_on_failure Scenario.offline
                  (JsObject [("action", JsString "cacheCDN")])
                  Scenario.installed _ eq_refl I eq_refl)).
Defined.

(** ** Push notifications *)

Lemma truthy_js_or a b : truthy b = true -> truthy (js_or a b) = true.
Proof. intros B. unfold js_or. destruct (truthy a) eqn:A; assumption. Qed.

Lemma js_or_truthy a b : truthy a = true -> js_or a b = a.
Proof. intros A. unfold js_or. rewrite A. reflexivity. Qed.

Lemma onPush_shown d data :
  push_json d = inr data ->
  forall b u t,
    get_prop data "body" = Some b ->
    get_prop data "url" = Some u ->
    get_prop data "title" = Some t ->
    onPush d =
    inr [ ShowNotification
            (js_or t (JsString "EduPath"))
            (mkOptions (js_or b (JsString "New update available!"))
                       "/icons/favicon.png" "/icons/favicon.png"
                       [200; 100; 200]%Z
                       (js_or u (JsString "/"))
                       [("open", "Open"); ("close", "Close")]) ].
Proof.
  intros J b u t B U T. unfold onPush. rewrite J, B, U, T. reflexivity.
Qed.

Lemma onPush_inversion d calls :
  onPush d = inr calls ->
  exists data b u t,
    push_json d = inr data /\
    get_prop data "body" = Some b /\
    get_prop data "url" = Some u /\
    get_prop data "title" = Some t.
Proof.
  unfold onPush. destruct (push_json d) as [e|data]; [discriminate|].
  destruct (get_prop data "body") as [b|] eqn:B; [|discriminate].
  destruct (get_prop data "url") as [u|] eqn:U; [|discriminate].
  destruct (get_prop data "title") as [t|] eqn:T; [|discriminate].
  intros _. exists data, b, u, t. repeat split; assumption.
Qed.

(** X22. When the push listener shows a notification it shows exactly
    one, and its title, body and data are never falsy: each is the
    payload's [title], [body], [url] when that is truthy, and otherwise
    the default ('EduPath', 'New update available!', '/').  Icon and badge
    are always the favicon.  A push without data shows the defaults. *)
Theorem push_notification_fields :
  forall (d : PushData) (calls : list HostCall),
    onPush d = inr calls ->
    exists data title options,
      push_json d = inr data /\
      calls = [ShowNotification title options] /\
      truthy title = true /\
      truthy (opt_body options) = true /\
      truthy (opt_data options) = true /\
      opt_icon options = "/icons/favicon.png" /\
      opt_badge options = "/icons/favicon.png" /\
      (forall v, get_prop data "title" = Some v ->
                 title = if truthy v then v else JsString "EduPath") /\
      (forall v, get_prop data "body" = Some v ->
                 opt_body options =
                 if truthy v then v else JsString "New update available!") /\
      (forall v, get_prop data "url" = Some v ->
                 opt_data options = if truthy v then v else JsString "/") /\
      (d = NoPushData ->
       title = JsString "EduPath" /\
       opt_body options = JsString "New update available!" /\
       opt_data options = JsString "/").
Proof.
  intros d calls H.
  destruct (onPush_inversion d calls H) as [data [b [u [t [J [B [U T]]]]]]].
  rewrite (onPush_shown d data J b u t B U T) in H. injection H as <-.
  exists data. eexists. eexists. split; [exact J|]. split; [reflexivity|].
  cbn [opt_body opt_data opt_icon opt_badge].
  repeat split; try (apply truthy_js_or; reflexivity).
  - intros v V. rewrite T in V. injection V as ->. reflexivity.
  - intros v V. rewrite B in V. injection V as ->. reflexivity.
  - intros v V. rewrite U in V. injection V as ->. reflexivity.
  - subst d. injection J as <-. injection T as <-. reflexivity.
  - subst d. injection J as <-. injection B as <-. reflexivity.
  - subst d. injection J as <-. injection U as <-. reflexivity.
Qed.

Lemma push_notification_fields_witness :
  onPush (PushPayload (Some (JsObject [("title", JsString "Results are out");
                                        ("body", JsString "")])))
  = inr [ ShowNotification (JsString "Results are out")
            (mkOptions (JsString "New update available!")
                       "/icons/favicon.png" "/icons/favicon.png"
                       [200; 100; 200]%Z (JsString "/")
                       [("open", "Open"); ("close", "Close")]) ] /\
  exists data title options,
    push_json (PushPayload (Some (JsObject [("title", JsString "Results are out");
                                            ("body", JsString "")])))
    = inr data /\
    truthy title = true /\ truthy (opt_body options) = true.
Proof.
  split; [reflexivity|].
  destruct (push_notification_fields
              (PushPayload (Some (JsObject [("title", JsString "Results are out");
                                            ("body", JsString "")])))
              _ eq_refl)
    as [data [title [options [J [_ [T [B _]]]]]]].
  exists data, title, options. repeat split; assumption.
Defined.

Lemma JsValue_nullish v :
  (v = JsNull \/ v = JsUndefined) \/ (v <> JsNull /\ v <> JsUndefined).
Proof.
  destruct v; try (right; split; discriminate);
    left; [right|left]; reflexivity.
Qed.

Lemma get_prop_some v name :
  v <> JsNull -> v <> JsUndefined -> exists x, get_prop v name = Some x.
Proof.
  intros A B. destruct v; try contradiction; cbn [get_prop];
    try (eexists; reflexivity).
  destruct (find (fun p => String.eqb (fst p) name) props);
    eexists; reflexivity.
Qed.

Lemma onPush_cases d :
  (d = PushPayload None /\ onPush d = inl JsonSyntaxError) \/
  ((d = PushPayload (Some JsNull) \/ d = PushPayload (Some JsUndefined)) /\
   onPush d = inl NullDataTypeError) \/
  (d <> PushPayload None /\ d <> PushPayload (Some JsNull) /\
   d <> PushPayload (Some JsUndefined) /\ exists calls, onPush d = inr calls).
Proof.
  destruct d as [|[v|]].
  - right. right. repeat split; try discriminate. eexists. reflexivity.
  - destruct (JsValue_nullish v) as [[E|E]|[A B]]; [subst v|subst v|].
    + right. left. split; [left|]; reflexivity.
    + right. left. split; [right|]; reflexivity.
    + right. right. repeat split; try discriminate; try congruence.
      destruct (get_prop_some v "body" A B) as [b Hb].
      destruct (get_prop_some v "url" A B) as [u Hu].
      destruct (get_prop_some v "title" A B) as [t Ht].
      eexists.
      apply (onPush_shown (PushPayload (Some v)) v eq_refl b u t Hb Hu Ht).
  - left. split; reflexivity.
Qed.

(** X23. The push listener dies without showing anything exactly when
    the payload is not JSON (a syntax error from [json()]) or its JSON is
    [null] (or [undefined]), on which reading [body] throws; a push
    without payload, and every other JSON value, shows a notification. *)
Theorem push_fails_on_bad_payload :
  forall (d : PushData),
    (onPush d = inl JsonSyntaxError <-> d = PushPayload None) /\
    (onPush d = inl NullDataTypeError <->
     d = PushPayload (Some JsNull) \/ d = PushPayload (Some JsUndefined)) /\
    ((exists calls, onPush d = inr calls) <->
     d <> PushPayload None /\ d <> PushPayload (Some JsNull) /\
     d <> PushPayload (Some JsUndefined)).
Proof.
  intros d.
  destruct (onPush_cases d) as [[D E]|[[D E]|[A [B [C [calls E]]]]]];
    rewrite E.
  - split; [tauto|]. split.
    + split; [discriminate|]. intros [X|X]; congruence.
    + split; [intros [c X]; discriminate|tauto].
  - split; [|split].
    + split; [discriminate|]. destruct D; congruence.
    + tauto.
    + split; [intros [c X]; discriminate|]. destruct D; tauto.
  - split; [|split].
    + split; [discriminate|contradiction].
    + split; [discriminate|]. intros [X|X]; contradiction.
    + split; [tauto|]. intros _. exists calls. reflexivity.
Qed.

Lemma calls_of_click action data :
  onNotificationClick action data =
  NotificationClose ::
  (if String.eqb action "open" || String.eqb action ""
   then [OpenWindow (js_or data (JsString "/"))] else []).
Proof. reflexivity. Qed.

(** X24. Clicking a notification the push listener has shown closes it
    and, when the action is 'open' or none, opens a window at exactly the
    data of the notification: the URL of the payload when that was
    truthy, '/' otherwise (the fallback of the click listener is never
    needed for such a notification).  Any other action, 'close' among
    them, only closes. *)
Theorem push_then_click_opens_pushed_url :
  forall (d : PushData) (title : JsValue) (options : NotificationOptions)
         (action : string),
    onPush d = inr [ShowNotification title options] ->
    onNotificationClick action (opt_data options) =
      (if String.eqb action "open" || String.eqb action ""
       then [NotificationClose; OpenWindow (opt_data options)]
       else [NotificationClose]) /\
    onNotificationClick "close" (opt_data options) = [NotificationClose].
Proof.
  intros d title options action H.
  destruct (onPush_inversion d _ H) as [data [b [u [t [J [B [U T]]]]]]].
  rewrite (onPush_shown d data J b u t B U T) in H.
  injection H as _ <-. cbn [opt_data]. split; [|reflexivity].
  rewrite calls_of_click.
  rewrite (js_or_truthy (js_or u (JsString "/")))
    by (apply truthy_js_or; reflexivity).
  destruct (String.eqb action "open" || String.eqb action ""); reflexivity.
Qed.

Lemma push_then_click_opens_pushed_url_witness :
  onPush (PushPayload (Some (JsObject [("url", JsString "/pages/careers_page.html")])))
  = inr [ ShowNotification (JsString "EduPath")
            (mkOptions (JsString "New update available!")
                       "/icons/favicon.png" "/icons/favicon.png"
                       [200; 100; 200]%Z (JsString "/pages/careers_page.html")
                       [("open", "Open"); ("close", "Close")]) ] /\
  onNotificationClick "open" (JsString "/pages/careers_page.html")
  = [NotificationClose; OpenWindow (JsString "/pages/careers_page.html")].
Proof.
  split; [reflexivity|].
  exact (proj1 (push_then_click_opens_pushed_url
                  (PushPayload (Some (JsObject
                     [("url", JsString "/pages/careers_page.html")])))
                  _ _ "open" eq_refl)).
Defined.

(** X25. Whatever the action and the data, the click listener closes the
    notification first and once; it opens at most one window, does so
    exactly for the action 'open' and for no action, and never at a falsy
    target. *)
Theorem click_closes_then_may_open :
  forall (action : string) (data : JsValue),
    exists rest,
      onNotificationClick action data = NotificationClose :: rest /\
      (rest = [] \/
       exists target, rest = [OpenWindow target] /\ truthy target = true) /\
      (rest <> [] <-> action = "open" \/ action = "").
Proof.
  intros action data. rewrite calls_of_click.
  destruct (String.eqb action "open") eqn:A;
    [|destruct (String.eqb action "") eqn:B]; cbn [orb].
  - eexists. split; [reflexivity|]. split.
    + right. eexists. split; [reflexivity|]. apply truthy_js_or. reflexivity.
    + split; [intros _; left; apply String.eqb_eq, A|discriminate].
  - eexists. split; [reflexivity|]. split.
    + right. eexists. split; [reflexivity|]. apply truthy_js_or. reflexivity.
    + split; [intros _; right; apply String.eqb_eq, B|discriminate].
  - exists []. split; [reflexivity|]. split; [left; reflexivity|].
    apply String.eqb_neq in A, B. split; [congruence|].
    intros [X|X]; contradiction.
Qed.

(** ** The older revisions *)

Lemma prune_own_keys whitelist s :
  prune whitelist (caches_keys s) s = filter (whitelisted whitelist) s.
Proof. apply prune_all_keys. auto. Qed.

Lemma whitelisted_survives whitelist s n :
  (In n whitelist ->
   cache_of n (filter (whitelisted whitelist) s) = cache_of n s) /\
  (~ In n whitelist ->
   caches_has n (filter (whitelisted whitelist) s) = false).
Proof.
  split; intros I.
  - apply (cache_of_filter (array_includes whitelist)).
    apply array_includes_In, I.
  - unfold whitelisted.
    rewrite (caches_has_filter (array_includes whitelist)).
    destruct (array_includes whitelist n) eqn:W; [|reflexivity].
    apply array_includes_In in W. contradiction.
Qed.

(** X26. Activation of the earlier revision keeps static-shell,
    dynamic-pages and images with their contents and deletes every other
    partition; the third-party partition of the current revision is among
    those it deletes. *)
Theorem earlier_activation_deletes_third_party :
  forall w : World,
    let w' := snd (Earlier.onActivate w) in
    caches w' = filter (whitelisted Earlier.cacheWhitelist) (caches w) /\
    (forall n, In n [CACHE_NAME; DYNAMIC_CACHE; IMAGE_CACHE] ->
               cache_of n (caches w') = cache_of n (caches w)) /\
    (forall n, ~ In n [CACHE_NAME; DYNAMIC_CACHE; IMAGE_CACHE] ->
               caches_has n (caches w') = false) /\
    caches_has CDN_CACHE (caches w') = false /\
    clients_claimed w' = true.
Proof.
  intros w w'.
  assert (E : caches w' = filter (whitelisted Earlier.cacheWhitelist) (caches w)).
  { unfold w', Earlier.onActivate, bind, on_caches, clients_claim.
    cbn [fst snd caches]. apply prune_own_keys. }
  split; [exact E|]. rewrite E. split; [|split; [|split]].
  - intros n I.
    apply (proj1 (whitelisted_survives Earlier.cacheWhitelist (caches w) n) I).
  - intros n I.
    apply (proj2 (whitelisted_survives Earlier.cacheWhitelist (caches w) n) I).
  - apply (proj2 (whitelisted_survives Earlier.cacheWhitelist (caches w)
                    CDN_CACHE)).
    cbv [Earlier.cacheWhitelist In]. intros [X|[X|[X|[]]]]; discriminate.
  - reflexivity.
Qed.

(** X27. The fetch listener of the original revision never writes to the
    storage.  It answers a GET request from the storage when an entry
    exists, without a fetch; otherwise (no entry, or a request that is
    not a GET) it answers with what the network gives, and a rejection
    reaches the caller. *)
Theorem original_fetch_is_read_only :
  forall (env : Env) (request : Request) (w : World),
    caches (snd (Original.onFetch env request w)) = caches w /\
    (forall cached,
        method request = "GET" ->
        caches_match (url request) (caches w) = Some cached ->
        Original.onFetch env request w = (Returned (Some cached), w)) /\
    (method request <> "GET" \/ caches_match (url request) (caches w) = None ->
     fst (Original.onFetch env request w) =
     match network env (url request) with
     | Resolves _ r => Returned (Some r)
     | Rejects _ => Thrown NetworkError
     | Pending => Hangs
     end).
Proof.
  intros env request w. unfold Original.onFetch, bind.
  destruct (String.eqb (method request) "GET") eqn:G.
  - apply String.eqb_eq in G. unfold caches_matchM.
    destruct (caches_match (url request) (caches w)) as [c|] eqn:Hit.
    + split; [reflexivity|]. split.
      * intros cached _ [= <-]. reflexivity.
      * intros [X|X]; [contradiction|discriminate].
    + split; [|split].
      * unfold lift_response, bind, fetch.
        destruct (network env (url request)); reflexivity.
      * intros cached _ X. discriminate.
      * intros _. unfold lift_response, bind, fetch.
        destruct (network env (url request)); reflexivity.
  - unfold ret at 1. split; [|split].
    + unfold lift_response, bind, fetch.
      destruct (network env (url request)); reflexivity.
    + intros cached X. apply String.eqb_neq in G. contradiction.
    + intros _. unfold lift_response, bind, fetch.
      destruct (network env (url request)); reflexivity.
Qed.

(** X28. Activation of the original revision keeps only the partition
    named by [CACHE_NAME], with its contents: dynamic-pages, images and
    third-party, had a later revision created them, are deleted. *)
Theorem original_activation_keeps_one_partition :
  forall w : World,
    let w' := snd (Original.onActivate w) in
    caches w' = filter (whitelisted [CACHE_NAME]) (caches w) /\
    cache_of CACHE_NAME (caches w') = cache_of CACHE_NAME (caches w) /\
    (forall n, n <> CACHE_NAME -> caches_has n (caches w') = false) /\
    clients_claimed w' = clients_claimed w.
Proof.
  intros w w'.
  assert (E : caches w' = filter (whitelisted [CACHE_NAME]) (caches w)).
  { unfold w', Original.onActivate, on_caches. cbn [snd caches].
    apply prune_own_keys. }
  split; [exact E|]. rewrite E. split; [|split].
  - apply (proj1 (whitelisted_survives [CACHE_NAME] (caches w) CACHE_NAME)).
    left. reflexivity.
  - intros n D.
    apply (proj2 (whitelisted_survives [CACHE_NAME] (caches w) n)).
    intros [X|[]]. congruence.
  - reflexivity.
Qed.

Lemma original_fetch_is_read_only_witness :
  (method ShellScenario.home = "GET" /\
   caches_match (url ShellScenario.home) (caches Scenario.installed)
   = Some (Scenario.ok_response "/index.html")) /\
  Original.onFetch Scenario.stalled ShellScenario.home Scenario.installed
  = (Returned (Some (Scenario.ok_response "/index.html")), Scenario.installed) /\
  fst (Original.onFetch Scenario.offline Scenario.page Scenario.installed)
  = Thrown NetworkError.
Proof.
  split; [split; reflexivity|]. split.
  - exact (proj1 (proj2 (original_fetch_is_read_only Scenario.stalled
                           ShellScenario.home Scenario.installed))
             _ eq_refl eq_refl).
  - exact (proj2 (proj2 (original_fetch_is_read_only Scenario.offline
                           Scenario.page Scenario.installed))
             (or_intror eq_refl)).
Defined.
